(** * Unification engine of the Q&A generator: model and verified properties

    Shallow embedding of [src/utils/data_models.py] (the pydantic models
    [QAItem], [QABatch], [ExportConfig]) and of
    [src/unifiers/data_unifier_simple.py] ([QADataUnifier], [QAExporter],
    [QADataManager]), with the selection of extracted pairs of
    [src/extractors/document_processor.py].

    Conventions of the embedding.
    - A Python [str] is a [string]; each [ascii] is one code point in the
      range 0..255 (Latin-1), so [String.length] is Python's [len].
    - A finite Python [float] is idealised as a rational [Q]; rounding is
      not modelled.  Equalities between confidences are stated with [==].
      A confidence is always finite; a filter bound may also be an
      infinity or nan ([pyfloat]).
    - A raised exception is the [Raise] branch of [result].
    - [QAItem] objects are mutable and shared between a batch and the
      unified list, so they live in a [store] indexed by object identity.
    - Functions of Python's standard library whose code is not part of the
      repository ([difflib.SequenceMatcher.ratio], [float] on a string,
      [str] on a metadata value, [datetime] formatting, [pathlib]) are
      Section variables. *)

From Stdlib Require Import ZArith QArith List Ascii String Sorted Permutation Lia Lqa.
From stdpp Require Import base gmap strings list sets sorting.

Local Open Scope Z_scope.
Local Open Scope list_scope.

(** ** Python values and exceptions *)

Inductive exn : Type :=
  | ValidationError (fields : list string)
  | ValueError (msg : string)
  | AttributeError
  | TypeError
  | ZeroDivisionError
  | OverflowError
  | OSError (path : string).

Inductive result (A : Type) : Type :=
  | Ok (a : A)
  | Raise (e : exn).
Arguments Ok {A} a.
Arguments Raise {A} e.

Definition bind {A B} (r : result A) (k : A -> result B) : result B :=
  match r with
  | Ok a => k a
  | Raise e => Raise e
  end.

Notation "'try' x <- r ;;; k" := (bind r (fun x => k))
  (at level 10, x name, r at level 100, k at level 200).

(** A Python [float]: a finite value, an infinity or nan. *)
Inductive pyfloat : Type :=
  | Finite (q : Q)
  | Infinity (negative : bool)
  | NaN.

(** The values of type [Any] that are modelled, as filter values and as
    metadata values: [None], booleans, integers, floats, strings and
    lists of strings.  [PFloat] is a finite float, [PInf] and [PNaN] are
    the others. *)
Inductive pyval : Type :=
  | PNone
  | PBool (b : bool)
  | PInt (z : Z)
  | PFloat (q : Q)
  | PStr (s : string)
  | PStrList (l : list string)
  | PInf (negative : bool)
  | PNaN.

(** [bool(v)], the truth value used by [if v]. *)
Definition truthy (v : pyval) : bool :=
  match v with
  | PNone => false
  | PBool b => b
  | PInt z => negb (Z.eqb z 0)
  | PFloat q => negb (Qeq_bool q 0)
  | PStr s => negb (String.eqb s EmptyString)
  | PStrList l => match l with [] => false | _ => true end
  | PInf _ | PNaN => true
  end.

(** The least magnitude of an [int] that [float] refuses: halfway between
    the largest double and [2 ** 1024]. *)
Definition DBL_OVERFLOW : Z := 2 ^ 1024 - 2 ^ 970.

(** [x >= y] for a finite [x]: false against nan. *)
Definition py_ge (x : Q) (y : pyfloat) : bool :=
  match y with
  | Finite q => Qle_bool q x
  | Infinity negative => negative
  | NaN => false
  end.

(** ** Strings: [str.lower], [str.strip], [in], [endswith] *)

Definition in_range (lo hi n : nat) : bool := Nat.leb lo n && Nat.leb n hi.

(** [str.lower] on one code point below 256: A-Z, and the Latin-1 capitals
    U+00C0..U+00DE except the multiplication sign U+00D7. *)
Definition lower_char (c : ascii) : ascii :=
  let n := nat_of_ascii c in
  if in_range 65 90 n || in_range 192 214 n || in_range 216 222 n
  then ascii_of_nat (n + 32)
  else c.

(** [str.isspace] on one code point below 256. *)
Definition is_space (c : ascii) : bool :=
  let n := nat_of_ascii c in
  in_range 9 13 n || in_range 28 32 n || Nat.eqb n 133 || Nat.eqb n 160.

Fixpoint lower (s : string) : string :=
  match s with
  | EmptyString => EmptyString
  | String c s' => String (lower_char c) (lower s')
  end.

Fixpoint lstrip (s : string) : string :=
  match s with
  | EmptyString => EmptyString
  | String c s' => if is_space c then lstrip s' else s
  end.

Fixpoint rstrip (s : string) : string :=
  match s with
  | EmptyString => EmptyString
  | String c s' =>
      match rstrip s' with
      | EmptyString => if is_space c then EmptyString else String c EmptyString
      | r => String c r
      end
  end.

Definition strip (s : string) : string := rstrip (lstrip s).

Definition len (s : string) : nat := String.length s.

(** [sub in s] for strings. *)
Fixpoint contains (sub s : string) : bool :=
  String.prefix sub s ||
  match s with
  | EmptyString => false
  | String _ s' => contains sub s'
  end.

Fixpoint rev_string (s acc : string) : string :=
  match s with
  | EmptyString => acc
  | String c s' => rev_string s' (String c acc)
  end.

(** [s.endswith(suffix)]. *)
Definition endswith (s suffix : string) : bool :=
  String.prefix (rev_string suffix EmptyString) (rev_string s EmptyString).

(** ** The pydantic models of [data_models.py] *)

Definition datetime := Z.

Record QAItem : Type := mkQAItem {
  id : string;
  pregunta : string;
  respuesta : string;
  categoria : string;
  nivel : string;
  tema : string;
  fuentes : list string;
  palabras_clave : list string;
  idioma : string;
  confianza : Q;
  metadatos : list (string * pyval);
  fecha_creacion : datetime
}.

(** Keyword arguments of [QAItem(...)]; [None] is an argument left out. *)
Record QAItemArgs : Type := mkQAItemArgs {
  arg_id : option string;
  arg_pregunta : option string;
  arg_respuesta : option string;
  arg_categoria : option string;
  arg_nivel : option string;
  arg_tema : option string;
  arg_fuentes : option (list string);
  arg_palabras_clave : option (list string);
  arg_idioma : option string;
  arg_confianza : option Q;
  arg_metadatos : option (list (string * pyval));
  arg_fecha_creacion : option datetime
}.

Definition basico : string := String "b" (String "225" "sico").
Definition niveles_validos : list string := [basico; "intermedio"; "avanzado"]%string.

(** [@validator('pregunta', 'respuesta') clean_text]. *)
Definition clean_text (v : string) : string := strip v.

(** [@validator('categoria', 'tema') lowercase_category_theme]. *)
Definition lowercase_category_theme (v : string) : string := strip (lower v).

(** A required [str] field declared with [Field(..., min_length=n)] and
    cleaned by [clean_text]: the length constraint belongs to the field's
    type and is checked first, on the value as passed; the class validator
    runs on the value that passed it. *)
Definition validate_text (min_length : nat) (v : option string) : option string :=
  match v with
  | None => None
  | Some s => if Nat.leb min_length (len s) then Some (clean_text s) else None
  end.

(** A field with a default: the default is taken as it is; a passed value
    goes through [check]. *)
Definition with_default {A} (default : A) (check : A -> option A) (v : option A) : option A :=
  match v with
  | None => Some default
  | Some a => check a
  end.

Definition validate_nivel (s : string) : option string :=
  if existsb (String.eqb s) niveles_validos then Some s else None.

Definition validate_confianza (q : Q) : option Q :=
  if Qle_bool 0 q && Qle_bool q 1 then Some q else None.

Definition failed {A} (name : string) (v : option A) : list string :=
  match v with
  | None => [name]
  | Some _ => []
  end.

(** The constructor [QAItem] called with keyword arguments: [uuid] and [now] are what the default factories
    [uuid.uuid4()] and [datetime.now()] return at the call. *)
Definition QAItem_init (uuid : string) (now : datetime) (a : QAItemArgs) : result QAItem :=
  let v_pregunta := validate_text 10 (arg_pregunta a) in
  let v_respuesta := validate_text 20 (arg_respuesta a) in
  let v_categoria :=
    with_default "general"%string (fun s => Some (lowercase_category_theme s)) (arg_categoria a) in
  let v_nivel := with_default "intermedio"%string validate_nivel (arg_nivel a) in
  let v_tema :=
    with_default EmptyString (fun s => Some (lowercase_category_theme s)) (arg_tema a) in
  let v_confianza := with_default (8 # 10)%Q validate_confianza (arg_confianza a) in
  match v_pregunta, v_respuesta, v_categoria, v_nivel, v_tema, v_confianza with
  | Some p, Some r, Some c, Some n, Some t, Some q =>
      Ok {| id := default uuid (arg_id a);
            pregunta := p;
            respuesta := r;
            categoria := c;
            nivel := n;
            tema := t;
            fuentes := default [] (arg_fuentes a);
            palabras_clave := default [] (arg_palabras_clave a);
            idioma := default "es"%string (arg_idioma a);
            confianza := q;
            metadatos := default [] (arg_metadatos a);
            fecha_creacion := default now (arg_fecha_creacion a) |}
  | _, _, _, _, _, _ =>
      Raise (ValidationError
               (failed "pregunta" v_pregunta ++ failed "respuesta" v_respuesta ++
                failed "categoria" v_categoria ++ failed "nivel" v_nivel ++
                failed "tema" v_tema ++ failed "confianza" v_confianza))
  end.

(** A tag is in normal form when lower-casing and trimming leave it as it is. *)
Definition normalized (s : string) : Prop := lower s = s /\ strip s = s.

Definition origenes_validos : list string := ["prompt"; "documento"; "manual"; "api"]%string.

(** [QAItem] objects are referred to by identity; the store gives the
    current value of every object. *)
Definition ref := nat.
Definition store := ref -> QAItem.

(** The assignment [obj.field = ...]: the object [r] takes the value [x]. *)
Definition assign (h : store) (r : ref) (x : QAItem) : store :=
  fun r' => if Nat.eqb r' r then x else h r'.

Definition set_fuentes (x : QAItem) (v : list string) : QAItem :=
  {| id := id x; pregunta := pregunta x; respuesta := respuesta x;
     categoria := categoria x; nivel := nivel x; tema := tema x;
     fuentes := v; palabras_clave := palabras_clave x; idioma := idioma x;
     confianza := confianza x; metadatos := metadatos x;
     fecha_creacion := fecha_creacion x |}.

Definition set_palabras_clave (x : QAItem) (v : list string) : QAItem :=
  {| id := id x; pregunta := pregunta x; respuesta := respuesta x;
     categoria := categoria x; nivel := nivel x; tema := tema x;
     fuentes := fuentes x; palabras_clave := v; idioma := idioma x;
     confianza := confianza x; metadatos := metadatos x;
     fecha_creacion := fecha_creacion x |}.

Definition set_respuesta (x : QAItem) (v : string) : QAItem :=
  {| id := id x; pregunta := pregunta x; respuesta := v;
     categoria := categoria x; nivel := nivel x; tema := tema x;
     fuentes := fuentes x; palabras_clave := palabras_clave x; idioma := idioma x;
     confianza := confianza x; metadatos := metadatos x;
     fecha_creacion := fecha_creacion x |}.

Definition set_confianza (x : QAItem) (v : Q) : QAItem :=
  {| id := id x; pregunta := pregunta x; respuesta := respuesta x;
     categoria := categoria x; nivel := nivel x; tema := tema x;
     fuentes := fuentes x; palabras_clave := palabras_clave x; idioma := idioma x;
     confianza := v; metadatos := metadatos x;
     fecha_creacion := fecha_creacion x |}.

(** [QABatch]; its [id] and [fecha_creacion] are prefixed, the names being
    taken by [QAItem]. *)
Record QABatch : Type := mkQABatch {
  batch_id : string;
  items : list ref;
  origen : string;
  prompt_original : option string;
  documento_fuente : option string;
  parametros_generacion : list (string * pyval);
  estadisticas : list (string * pyval);
  batch_fecha_creacion : datetime
}.

Record ExportConfig : Type := mkExportConfig {
  formato : string;
  incluir_metadatos : bool;
  filtros : gmap string pyval;
  ruta_salida : option string;
  nombre_archivo : option string
}.

(** ** [difflib.SequenceMatcher(None, a, b).ratio()]

    The Ratcliff-Obershelp measure as [difflib] computes it, with no junk
    function and with its automatic junk heuristic: when [b] has 200
    elements or more, the elements that make up more than 1% of it (plus
    one) are popular and are left out of the index of [b].  The longest
    matching block is first sought among the blocks free of popular
    elements (earliest in [a], then earliest in [b]), then extended to
    its left and to its right by whatever elements match; the same is
    done to the left and to the right of the block.  The ratio is
    [2.0 * matches / length], and [1.0] for two empty strings.  The
    theorems on the merge hold for every similarity function; this one
    instantiates them on concrete data. *)
Module SequenceMatcher.

(** The popular elements of [b] (each as often as it occurs). *)
Definition popular (b : list ascii) : list ascii :=
  let n := length b in
  if Nat.leb 200 n
  then List.filter
         (fun c => Nat.ltb (n / 100 + 1)
                     (length (List.filter (fun d => Ascii.eqb d c) b))) b
  else [].

Definition is_popular (pop : list ascii) (c : ascii) : bool :=
  existsb (fun d => Ascii.eqb d c) pop.

(** The length of the common prefix made of indexed elements. *)
Fixpoint common_prefix (pop : list ascii) (a b : list ascii) : nat :=
  match a, b with
  | x :: a', y :: b' =>
      if Ascii.eqb x y && negb (is_popular pop y)
      then S (common_prefix pop a' b') else O
  | _, _ => O
  end.

(** Scan the start positions [j], [j+1], ... of [b] for the fixed start
    [i] of [a]; a later block replaces the best one only if longer. *)
Fixpoint scan_b (pop : list ascii) (a b : list ascii) (i j : nat) (best : nat * nat * nat)
  : nat * nat * nat :=
  match b with
  | [] => best
  | _ :: b' =>
      let k := common_prefix pop a b in
      let best' := if Nat.ltb (snd best) k then (i, j, k) else best in
      scan_b pop a b' i (S j) best'
  end.

Fixpoint scan_a (pop : list ascii) (a b : list ascii) (i : nat) (best : nat * nat * nat)
  : nat * nat * nat :=
  match a with
  | [] => best
  | _ :: a' => scan_a pop a' b (S i) (scan_b pop a b i O best)
  end.

(** The block found in the windows [a] and [b], then the two loops that
    extend it over matching elements on both sides. *)
Definition find_longest_match (pop : list ascii) (a b : list ascii) : nat * nat * nat :=
  let '(i, j, k) := scan_a pop a b O (O, O, O) in
  let before := common_prefix [] (rev (take i a)) (rev (take j b)) in
  let after := common_prefix [] (drop (i + k) a) (drop (j + k) b) in
  ((i - before)%nat, (j - before)%nat, (before + k + after)%nat).

Fixpoint matches (pop : list ascii) (fuel : nat) (a b : list ascii) : nat :=
  match fuel with
  | O => O
  | S fuel' =>
      let '(i, j, k) := find_longest_match pop a b in
      match k with
      | O => O
      | _ => (k + matches pop fuel' (take i a) (take j b)
                + matches pop fuel' (drop (i + k) a) (drop (j + k) b))%nat
      end
  end.

Definition ratio (a b : string) : Q :=
  let la := list_ascii_of_string a in
  let lb := list_ascii_of_string b in
  let total := (length la + length lb)%nat in
  match total with
  | O => 1%Q
  | _ => (inject_Z (2 * Z.of_nat (matches (popular lb) (S (length la)) la lb))
          / inject_Z (Z.of_nat total))%Q
  end.

End SequenceMatcher.

(** ** [QADataUnifier]

    [batches] are the batch objects the unifier was given, each by what
    it holds at the moment the unifier is looked at.  The unifier never
    changes a batch, but it keeps the caller's objects: a caller who
    extends a batch after handing it over changes [batches] and leaves
    [unified_items] as it is. *)

Record QADataUnifier : Type := mkQADataUnifier {
  batches : list QABatch;
  unified_items : list ref
}.

Definition QADataUnifier_init : QADataUnifier :=
  {| batches := []; unified_items := [] |}.

Definition add_batch (u : QADataUnifier) (batch : QABatch) : QADataUnifier :=
  {| batches := batches u ++ [batch];
     unified_items := unified_items u ++ items batch |}.

Definition add_batches (u : QADataUnifier) (bs : list QABatch) : QADataUnifier :=
  fold_left add_batch bs u.

(** [list(set(l))]: the distinct elements of [l].  Python leaves the order
    unspecified; [elements] fixes one. *)
Definition list_set (l : list string) : list string :=
  elements (list_to_set l : gset string).

Definition Qltb (a b : Q) : bool := negb (Qle_bool b a).

Definition Qlen (s : string) : Q := inject_Z (Z.of_nat (len s)).

(** Values of the statistics mapping. *)
Inductive statval : Type :=
  | SInt (n : Z)
  | SFloat (q : Q)
  | SDist (d : list (string * nat)).

(** [d[k] = d.get(k, 0) + n] on a dict in insertion order. *)
Fixpoint count_add (k : string) (n : nat) (d : list (string * nat)) : list (string * nat) :=
  match d with
  | [] => [(k, n)]
  | (k', m) :: d' =>
      if String.eqb k' k then (k', (m + n)%nat) :: d' else (k', m) :: count_add k n d'
  end.

(** [sorted(d.items(), key=lambda x: x[1], reverse=True)]: stable. *)
Fixpoint insert_desc (x : string * nat) (l : list (string * nat)) : list (string * nat) :=
  match l with
  | [] => [x]
  | y :: l' => if Nat.ltb (snd x) (snd y) then y :: insert_desc x l' else x :: l
  end.

Definition sorted_desc (d : list (string * nat)) : list (string * nat) :=
  fold_right insert_desc [] d.

(** [a / b] on numbers. *)
Definition py_div (a b : Q) : result Q :=
  if Qeq_bool b 0 then Raise ZeroDivisionError else Ok (a / b)%Q.

(** [sum(...)]: starts from 0 and adds from the left. *)
Definition py_sum (l : list Q) : Q := fold_left Qplus l 0%Q.

Fixpoint dict_get {A} (k : string) (d : list (string * A)) : option A :=
  match d with
  | [] => None
  | (k', v) :: d' => if String.eqb k' k then Some v else dict_get k d'
  end.

Section Unifier.

(** [SequenceMatcher(None, a, b).ratio()]. *)
Variable ratio : string -> string -> Q.

(** [float(s)] on a string: [None] when it raises [ValueError]. *)
Variable float_of_str : string -> option pyfloat.

(** The test of line 64 on the current values of the two records. *)
Definition is_similar (similarity_threshold : Q) (item existing_item : QAItem) : bool :=
  let question_sim :=
    ratio (strip (lower (pregunta item))) (strip (lower (pregunta existing_item))) in
  let answer_sim :=
    ratio (strip (lower (respuesta item))) (strip (lower (respuesta existing_item))) in
  Qltb similarity_threshold question_sim || Qltb similarity_threshold answer_sim.

(** Lines 66-78, one assignment after the other on the store; [item] and
    [existing_item] may be the same object.  The literal [1.2] is the
    rational 12/10: a length times 1.2 lies at a whole number or at least
    1/5 away from one, so for the lengths strings have the comparison of
    line 74 comes out the same in binary floating point. *)
Definition merge_into (h : store) (existing_item item : ref) : store :=
  let h :=
    assign h existing_item
      (set_fuentes (h existing_item) (fuentes (h existing_item) ++ fuentes (h item))) in
  let h :=
    assign h existing_item
      (set_fuentes (h existing_item) (list_set (fuentes (h existing_item)))) in
  let h :=
    assign h existing_item
      (set_palabras_clave (h existing_item)
         (palabras_clave (h existing_item) ++ palabras_clave (h item))) in
  let h :=
    assign h existing_item
      (set_palabras_clave (h existing_item) (list_set (palabras_clave (h existing_item)))) in
  let h :=
    if Qltb (Qlen (respuesta (h existing_item)) * (12 # 10)) (Qlen (respuesta (h item)))
    then assign h existing_item (set_respuesta (h existing_item) (respuesta (h item)))
    else h in
  assign h existing_item
    (set_confianza (h existing_item)
       ((confianza (h existing_item) + confianza (h item)) / 2)%Q).

(** The inner loop over [merged_items]: [Some] store when a record
    matched ([is_duplicate], after the [break]), [None] otherwise. *)
Fixpoint scan_merged (thr : Q) (h : store) (item : ref) (merged_items : list ref)
  : option store :=
  match merged_items with
  | [] => None
  | existing_item :: rest =>
      if is_similar thr (h item) (h existing_item)
      then Some (merge_into h existing_item item)
      else scan_merged thr h item rest
  end.

(** One turn of the outer loop, on (store, merged_items, merged_count). *)
Definition process_item (thr : Q) (st : store * list ref * nat) (item : ref)
  : store * list ref * nat :=
  let '(h, merged_items, merged_count) := st in
  match scan_merged thr h item merged_items with
  | Some h' => (h', merged_items, S merged_count)
  | None => (h, merged_items ++ [item], merged_count)
  end.

(** [merge_similar_items]: the new store, the unifier with its list
    replaced, and the returned count. *)
Definition merge_similar_items (similarity_threshold : Q) (h : store) (u : QADataUnifier)
  : store * QADataUnifier * nat :=
  let '(h', merged_items, merged_count) :=
    fold_left (process_item similarity_threshold) (unified_items u) (h, [], O) in
  (h', {| batches := batches u; unified_items := merged_items |}, merged_count).

(** *** [filter_items] *)

(** ['key' in filters and filters['key']]. *)
Definition active (filters : gmap string pyval) (key : string) : option pyval :=
  match filters !! key with
  | Some v => if truthy v then Some v else None
  | None => None
  end.

(** [v.lower()]: only a [str] has the method. *)
Definition py_lower (v : pyval) : result string :=
  match v with
  | PStr s => Ok (lower s)
  | _ => Raise AttributeError
  end.

(** [float(v)]: an [int] too large for a double raises [OverflowError]. *)
Definition py_float (v : pyval) : result pyfloat :=
  match v with
  | PFloat q => Ok (Finite q)
  | PInf negative => Ok (Infinity negative)
  | PNaN => Ok NaN
  | PInt z =>
      if Z.ltb (Z.abs z) DBL_OVERFLOW then Ok (Finite (inject_Z z))
      else Raise OverflowError
  | PBool b => Ok (Finite (if b then 1 else 0))
  | PStr s =>
      match float_of_str s with
      | Some x => Ok x
      | None => Raise (ValueError "could not convert string to float")
      end
  | PNone | PStrList _ => Raise TypeError
  end.

Definition filter_items (h : store) (u : QADataUnifier) (filters : gmap string pyval)
  : result (list ref) :=
  let filtered_items := unified_items u in
  try filtered_items <-
    match active filters "categoria" with
    | Some v =>
        try categoria_f <- py_lower v ;;;
        Ok (List.filter (fun item => String.eqb (lower (categoria (h item))) categoria_f)
              filtered_items)
    | None => Ok filtered_items
    end ;;;
  try filtered_items <-
    match active filters "nivel" with
    | Some v =>
        try nivel_f <- py_lower v ;;;
        Ok (List.filter (fun item => String.eqb (lower (nivel (h item))) nivel_f)
              filtered_items)
    | None => Ok filtered_items
    end ;;;
  try filtered_items <-
    match active filters "tema" with
    | Some v =>
        try tema_f <- py_lower v ;;;
        Ok (List.filter (fun item => contains tema_f (lower (tema (h item))))
              filtered_items)
    | None => Ok filtered_items
    end ;;;
  try filtered_items <-
    match active filters "confianza_minima" with
    | Some v =>
        try min_conf <- py_float v ;;;
        Ok (List.filter (fun item => py_ge (confianza (h item)) min_conf)
              filtered_items)
    | None => Ok filtered_items
    end ;;;
  Ok filtered_items.

(** *** [get_statistics] *)

Definition get_statistics (h : store) (u : QADataUnifier) : result (list (string * statval)) :=
  match unified_items u with
  | [] => Ok [("total"%string, SInt 0)]
  | _ =>
      let stats :=
        [("total_items"%string, SInt (Z.of_nat (length (unified_items u))));
         ("total_batches"%string, SInt (Z.of_nat (length (batches u))))] in
      let categorias :=
        fold_left (fun d item => count_add (categoria (h item)) 1 d) (unified_items u) [] in
      let niveles :=
        fold_left (fun d item => count_add (nivel (h item)) 1 d) (unified_items u) [] in
      let temas :=
        fold_left
          (fun d item =>
             if negb (String.eqb (tema (h item)) EmptyString)
             then count_add (tema (h item)) 1 d else d)
          (unified_items u) [] in
      let idiomas :=
        fold_left (fun d item => count_add (idioma (h item)) 1 d) (unified_items u) [] in
      let origenes :=
        fold_left (fun d batch => count_add (origen batch) (length (items batch)) d)
          (batches u) [] in
      try confianza_promedio <-
        py_div (py_sum (map (fun item => confianza (h item)) (unified_items u)))
               (inject_Z (Z.of_nat (length (unified_items u)))) ;;;
      Ok (stats ++
          [("distribucion_categorias"%string, SDist categorias);
           ("distribucion_niveles"%string, SDist niveles);
           ("distribucion_temas"%string, SDist (take 10 (sorted_desc temas)));
           ("distribucion_idiomas"%string, SDist idiomas);
           ("distribucion_origenes"%string, SDist origenes);
           ("confianza_promedio"%string, SFloat confianza_promedio)])
  end.

End Unifier.

(** ** [QAExporter] *)

Definition row := list (string * pyval).

(** [d[k] = v] on a dict in insertion order. *)
Fixpoint dict_set {A} (k : string) (v : A) (d : list (string * A)) : list (string * A) :=
  match d with
  | [] => [(k, v)]
  | (k', v') :: d' =>
      if String.eqb k' k then (k', v) :: d' else (k', v') :: dict_set k v d'
  end.

Definition keys {A} (d : list (string * A)) : list string := map fst d.

(** What a written file holds: the header and the rows of cells handed
    to [csv.DictWriter], or the structure handed to [json.dump]. *)
Inductive file_content : Type :=
  | CsvFile (header : list string) (rows : list (list pyval))
  | JsonFile (total_items : nat) (export_date : string) (format_version : string)
             (qa_items : list row).

Inductive log_event : Type :=
  | Warning_no_data
  | Info_csv (file_path : string) (n : nat)
  | Info_json (file_path : string) (n : nat).

(** The file system and the log.  [writable] and [creatable] say where
    [open(path, 'w')] and [mkdir] succeed. *)
Record world : Type := mkWorld {
  files : gmap string file_content;
  dirs : gset string;
  writable : string -> bool;
  creatable : string -> bool;
  log : list log_event
}.

Definition logged (e : log_event) (w : world) : world :=
  {| files := files w; dirs := dirs w; writable := writable w;
     creatable := creatable w; log := log w ++ [e] |}.

(** [with open(file_path, 'w') as f: ...] writing [c]. *)
Definition write_file (w : world) (file_path : string) (c : file_content) : result world :=
  if writable w file_path
  then Ok {| files := <[file_path := c]> (files w); dirs := dirs w;
             writable := writable w; creatable := creatable w; log := log w |}
  else Raise (OSError file_path).

(** [sorted(...)] on strings: by code points. *)
Fixpoint insert_str (x : string) (l : list string) : list string :=
  match l with
  | [] => [x]
  | y :: l' => if String.leb x y then x :: l else y :: insert_str x l'
  end.

Definition sorted_str (l : list string) : list string := fold_right insert_str [] l.

(** The cells [csv.DictWriter] writes for one row: a missing key gives the
    empty string ([restval]). *)
Definition csv_cells (columns : list string) (r : row) : list pyval :=
  map (fun c => default (PStr EmptyString) (dict_get c r)) columns.

Record QAExporter : Type := mkQAExporter {
  supported_formats : list string
}.

Definition QAExporter_init : QAExporter :=
  {| supported_formats := ["csv"; "json"; "xlsx"; "yaml"]%string |}.

Section Exporter.

(** [str(value)] on a metadata value. *)
Variable py_str : pyval -> string.

(** [d.isoformat()] and [d.strftime("%Y%m%d_%H%M%S")]. *)
Variable isoformat : datetime -> string.
Variable strftime : datetime -> string.

(** [settings.OUTPUT_DIR], [str(Path(a) / b)], [str(Path(p).parent)] and
    the directories [mkdir(parents=True)] has to create for [p]. *)
Variable OUTPUT_DIR : string.
Variable path_join : string -> string -> string.
Variable path_parent : string -> string.
Variable path_ancestors : string -> list string.

Definition joined (l : list string) : string :=
  match l with
  | [] => EmptyString
  | _ => String.concat "|" l
  end.

Definition export_row (item : QAItem) (include_metadata : bool) : row :=
  let r : row :=
    [("id", PStr (id item));
     ("pregunta", PStr (pregunta item));
     ("respuesta", PStr (respuesta item));
     ("categoria", PStr (categoria item));
     ("nivel", PStr (nivel item));
     ("tema", PStr (tema item));
     ("idioma", PStr (idioma item));
     ("confianza", PFloat (confianza item));
     ("fecha_creacion", PStr (isoformat (fecha_creacion item)));
     ("fuentes", PStr (joined (fuentes item)));
     ("palabras_clave", PStr (joined (palabras_clave item)))]%string in
  if include_metadata && match metadatos item with [] => false | _ => true end
  then fold_left
         (fun r kv => dict_set ("meta_" +:+ fst kv) (PStr (py_str (snd kv))) r)
         (metadatos item) r
  else r.

Definition prepare_export_data (h : store) (its : list ref) (include_metadata : bool)
  : list row :=
  map (fun item => export_row (h item) include_metadata) its.

Definition all_columns (data : list row) : gset string :=
  fold_left (fun s r => s ∪ list_to_set (keys r)) data ∅.

Definition export_to_csv (h : store) (w : world) (its : list ref) (file_path : string)
  (include_metadata : bool) : result world :=
  let data := prepare_export_data h its include_metadata in
  match data with
  | [] => Ok (logged Warning_no_data w)
  | _ =>
      let columns := sorted_str (elements (all_columns data)) in
      try w <- write_file w file_path (CsvFile columns (map (csv_cells columns) data)) ;;;
      Ok (logged (Info_csv file_path (length data)) w)
  end.

Definition export_to_json (h : store) (w : world) (now : datetime) (its : list ref)
  (file_path : string) (include_metadata : bool) : result world :=
  let data := prepare_export_data h its include_metadata in
  try w <- write_file w file_path
             (JsonFile (length data) (isoformat now) "1.0" data) ;;;
  Ok (logged (Info_json file_path (length data)) w).

(** [full_path.parent.mkdir(parents=True, exist_ok=True)]. *)
Definition mkdir_parents (w : world) (d : string) : result world :=
  if creatable w d
  then Ok {| files := files w; dirs := dirs w ∪ {[d]} ∪ list_to_set (path_ancestors d);
             writable := writable w; creatable := creatable w; log := log w |}
  else Raise (OSError d).

(** Lines 243-260 of [export]: where the file goes. *)
Definition export_target (now : datetime) (config : ExportConfig) : string :=
  let output_path :=
    match ruta_salida config with
    | Some r => if String.eqb r EmptyString then OUTPUT_DIR else r
    | None => OUTPUT_DIR
    end in
  let filename :=
    match nombre_archivo config with
    | Some n =>
        if String.eqb n EmptyString
        then "qa_export_" +:+ strftime now +:+ "." +:+ formato config
        else n
    | None => "qa_export_" +:+ strftime now +:+ "." +:+ formato config
    end in
  let filename :=
    if endswith filename ("." +:+ formato config)
    then filename
    else filename +:+ "." +:+ formato config in
  path_join output_path filename.

(** [export]: the list [supported_formats] of the exporter is not
    consulted; the branch on [config.formato] decides. *)
Definition export (self : QAExporter) (h : store) (w : world) (now : datetime)
  (its : list ref) (config : ExportConfig) : result (world * string) :=
  let full_path := export_target now config in
  try w <- mkdir_parents w (path_parent full_path) ;;;
  try w <-
    (if String.eqb (formato config) "csv"
     then export_to_csv h w its full_path (incluir_metadatos config)
     else if String.eqb (formato config) "json"
     then export_to_json h w now its full_path (incluir_metadatos config)
     else Raise (ValueError ("Formato no soportado: " +:+ formato config))) ;;;
  Ok (w, full_path).

End Exporter.

(** ** [QADataManager] *)

(** What a caller can pass to [add_data]. *)
#[warnings="-register-all"]
Inductive pyobj : Type :=
  | ObjBatch (b : QABatch)
  | ObjItem (r : ref)
  | ObjList (l : list pyobj)
  | ObjOther (v : pyval).

Definition is_QABatch (o : pyobj) : bool :=
  match o with ObjBatch _ => true | _ => false end.

Definition is_QAItem (o : pyobj) : bool :=
  match o with ObjItem _ => true | _ => false end.

(** [isinstance(data, list)], with the elements. *)
Definition as_list (o : pyobj) : option (list pyobj) :=
  match o with
  | ObjList l => Some l
  | ObjOther (PStrList l) => Some (map (fun s => ObjOther (PStr s)) l)
  | _ => None
  end.

Definition the_batches (l : list pyobj) : list QABatch :=
  omap (fun o => match o with ObjBatch b => Some b | _ => None end) l.

Definition the_items (l : list pyobj) : list ref :=
  omap (fun o => match o with ObjItem r => Some r | _ => None end) l.

Record QADataManager : Type := mkQADataManager {
  unifier : QADataUnifier;
  exporter : QAExporter
}.

Definition QADataManager_init : QADataManager :=
  {| unifier := QADataUnifier_init; exporter := QAExporter_init |}.

Definition with_unifier (m : QADataManager) (u : QADataUnifier) : QADataManager :=
  {| unifier := u; exporter := exporter m |}.

(** [add_data]; [uuid] and [now] are the defaults the temporary batch
    takes for its [id] and [fecha_creacion].  The [else: raise] belongs
    to the outer [if]: a list that is neither all batches nor all items
    falls through the inner [if]/[elif]. *)
Definition add_data (uuid : string) (now : datetime) (m : QADataManager) (data : pyobj)
  : result QADataManager :=
  match data with
  | ObjBatch b => Ok (with_unifier m (add_batch (unifier m) b))
  | _ =>
      match as_list data with
      | Some l =>
          if forallb is_QABatch l
          then Ok (with_unifier m (add_batches (unifier m) (the_batches l)))
          else if forallb is_QAItem l
          then
            let temp_batch :=
              {| batch_id := uuid; items := the_items l; origen := "manual";
                 prompt_original := None; documento_fuente := None;
                 parametros_generacion := [("added_manually"%string, PBool true)];
                 estadisticas := []; batch_fecha_creacion := now |} in
            Ok (with_unifier m (add_batch (unifier m) temp_batch))
          else Ok m
      | None => Raise (ValueError "Tipo de datos no soportado")
      end
  end.

Definition get_summary (h : store) (m : QADataManager)
  : result (list (string * statval)) :=
  get_statistics h (unifier m).


(** ** The rest of [data_models.py] *)

(** [QABatch.add_item]. *)
Definition add_item (b : QABatch) (item : ref) : QABatch :=
  {| batch_id := batch_id b; items := items b ++ [item]; origen := origen b;
     prompt_original := prompt_original b; documento_fuente := documento_fuente b;
     parametros_generacion := parametros_generacion b; estadisticas := estadisticas b;
     batch_fecha_creacion := batch_fecha_creacion b |}.

(** [QABatch.get_stats]. *)
Definition get_stats (h : store) (b : QABatch) : result (list (string * statval)) :=
  match items b with
  | [] => Ok [("total"%string, SInt 0)]
  | _ =>
      let categorias :=
        fold_left (fun d item => count_add (categoria (h item)) 1 d) (items b) [] in
      let niveles :=
        fold_left (fun d item => count_add (nivel (h item)) 1 d) (items b) [] in
      let temas :=
        fold_left
          (fun d item =>
             if negb (String.eqb (tema (h item)) EmptyString)
             then count_add (tema (h item)) 1 d else d)
          (items b) [] in
      try confianza_promedio <-
        py_div (py_sum (map (fun item => confianza (h item)) (items b)))
               (inject_Z (Z.of_nat (length (items b)))) ;;;
      Ok [("total"%string, SInt (Z.of_nat (length (items b))));
          ("categorias"%string, SDist categorias);
          ("niveles"%string, SDist niveles);
          ("temas"%string, SDist temas);
          ("confianza_promedio"%string, SFloat confianza_promedio)]
  end.

(** [GenerationRequest]: record and keyword arguments.  For an
    [Optional] field the argument is [None] when left out, [Some None]
    when [None] is passed. *)
Record GenerationRequest : Type := mkGenerationRequest {
  tipo : string;
  gr_prompt : option string;
  gr_tema : option string;
  gr_categoria : option string;
  gr_nivel : option string;
  num_preguntas : option Z;
  documento_path : option string;
  modelo : option string;
  gr_idioma : option string;
  usar_busqueda_avanzada : option bool
}.

Record GenerationRequestArgs : Type := mkGenerationRequestArgs {
  arg_tipo : option string;
  arg_prompt : option (option string);
  arg_gr_tema : option (option string);
  arg_gr_categoria : option (option string);
  arg_gr_nivel : option (option string);
  arg_num_preguntas : option (option Z);
  arg_documento_path : option (option string);
  arg_modelo : option (option string);
  arg_gr_idioma : option (option string);
  arg_usar_busqueda_avanzada : option (option bool)
}.

(** [values.get(key)] is falsy: the key is missing, or its value is. *)
Definition falsy_in (values : gmap string pyval) (key : string) : bool :=
  match values !! key with
  | Some v => negb (truthy v)
  | None => true
  end.

(** [@validator('tipo') validate_request_type(cls, v, values)]; [values]
    holds the fields validated before [tipo]. *)
Definition validate_request_type (v : string) (values : gmap string pyval) : result string :=
  if String.eqb v "prompt" && falsy_in values "prompt" && falsy_in values "tema"
  then Raise (ValueError "Para tipo 'prompt' se requiere 'prompt' o 'tema'")
  else if String.eqb v "documento" && falsy_in values "documento_path"
  then Raise (ValueError "Para tipo 'documento' se requiere 'documento_path'")
  else Ok v.

Definition tipos_validos : list string := ["prompt"; "documento"]%string.

(** The field [tipo]: required, one of the two literals, then the class
    validator.  Fields are validated in the order of their declaration and
    [tipo] is declared first, so the validator receives no other field. *)
Definition validate_tipo (v : option string) : option string :=
  match v with
  | None => None
  | Some s =>
      if existsb (String.eqb s) tipos_validos
      then match validate_request_type s ∅ with
           | Ok s' => Some s'
           | Raise _ => None
           end
      else None
  end.

(** An [Optional] field: the default when left out, any passed value that
    [check] accepts, [None] when [None] is passed. *)
Definition optional {A} (default : option A) (check : A -> bool) (v : option (option A))
  : option (option A) :=
  match v with
  | None => Some default
  | Some None => Some None
  | Some (Some a) => if check a then Some (Some a) else None
  end.

Definition GenerationRequest_init (a : GenerationRequestArgs) : result GenerationRequest :=
  let v_tipo := validate_tipo (arg_tipo a) in
  let v_nivel :=
    optional (Some "intermedio"%string) (fun s => existsb (String.eqb s) niveles_validos)
      (arg_gr_nivel a) in
  let v_num :=
    optional (Some 10) (fun n => Z.leb 1 n && Z.leb n 100) (arg_num_preguntas a) in
  match v_tipo, v_nivel, v_num with
  | Some t, Some n, Some k =>
      Ok {| tipo := t;
            gr_prompt := default None (arg_prompt a);
            gr_tema := default None (arg_gr_tema a);
            gr_categoria := default (Some "general"%string) (arg_gr_categoria a);
            gr_nivel := n;
            num_preguntas := k;
            documento_path := default None (arg_documento_path a);
            modelo := default (Some "openai"%string) (arg_modelo a);
            gr_idioma := default (Some "es"%string) (arg_gr_idioma a);
            usar_busqueda_avanzada := default (Some false) (arg_usar_busqueda_avanzada a) |}
  | _, _, _ =>
      Raise (ValidationError
               (failed "tipo" v_tipo ++ failed "nivel" v_nivel ++
                failed "num_preguntas" v_num))
  end.

(** ** The rest of [data_unifier_simple.py] *)

Section Pipeline.

Variable ratio : string -> string -> Q.
Variable float_of_str : string -> option pyfloat.
Variable py_str : pyval -> string.
Variables isoformat strftime : datetime -> string.
Variable OUTPUT_DIR : string.
Variable path_join : string -> string -> string.
Variable path_parent : string -> string.
Variable path_ancestors : string -> list string.

(** Lines 249-258 of [export]: the name of the file. *)
Definition export_filename (now : datetime) (config : ExportConfig) : string :=
  let filename :=
    match nombre_archivo config with
    | Some n =>
        if String.eqb n EmptyString
        then "qa_export_" +:+ strftime now +:+ "." +:+ formato config
        else n
    | None => "qa_export_" +:+ strftime now +:+ "." +:+ formato config
    end in
  if endswith filename ("." +:+ formato config)
  then filename
  else filename +:+ "." +:+ formato config.

(** [process_and_export].  The merge changes the store and the unifier
    before anything can fail, so they are returned beside the outcome of
    the filter and of the export. *)
Definition process_and_export (m : QADataManager) (h : store) (w : world) (now : datetime)
  (export_config : ExportConfig) (remove_duplicates : bool) (similarity_threshold : Q)
  : store * QADataManager * result (world * string) :=
  let '(h, u) :=
    if remove_duplicates
    then fst (merge_similar_items ratio similarity_threshold h (unifier m))
    else (h, unifier m) in
  (h, with_unifier m u,
   try items_to_export <- filter_items float_of_str h u (filtros export_config) ;;;
   export py_str isoformat strftime OUTPUT_DIR path_join path_parent path_ancestors
     (exporter m) h w now items_to_export export_config).

End Pipeline.

(** ** [QAExtractor.extract_existing_qa] of [document_processor.py] *)

Section Extractor.

(** [re.findall(pattern, text, re.DOTALL | re.IGNORECASE)] for a pattern
    with two groups: the pairs of matched groups. *)
Variable findall : string -> string -> list (string * string).

Definition inverted_question_mark : ascii := "191"%char.

Definition qa_patterns : list string :=
  ["P(?:regunta)?[:\-\s]*(.+?)\s*R(?:espuesta)?[:\-\s]*(.+?)(?=P(?:regunta)?[:\-\s]|$)";
   "Q[:\-\s]*(.+?)\s*A[:\-\s]*(.+?)(?=Q[:\-\s]|$)";
   "(\d+\.\s*.+?\?)\s*(.+?)(?=\d+\.|$)";
   String inverted_question_mark "(.+?\?)\s*(.+?)(?="
     +:+ String inverted_question_mark "|$)"]%string.

(** The test of lines 169-172 on a pair (question, answer). *)
Definition quality_ok (seen_questions : gset string) (qa : string * string) : bool :=
  negb (bool_decide (lower (fst qa) ∈ seen_questions)) &&
  Nat.ltb 10 (len (fst qa)) &&
  Nat.ltb 20 (len (snd qa)) &&
  contains "?" (fst qa).

Definition quality_step (st : list (string * string) * gset string) (qa : string * string)
  : list (string * string) * gset string :=
  if quality_ok (snd st) qa
  then (fst st ++ [qa], {[lower (fst qa)]} ∪ snd st)
  else st.

Definition extract_existing_qa (text : string) : list (string * string) :=
  let qa_pairs :=
    flat_map
      (fun pattern => map (fun m => (strip (fst m), strip (snd m))) (findall pattern text))
      qa_patterns in
  fst (fold_left quality_step qa_pairs ([], ∅)).

End Extractor.

(** The keyword arguments with which [process_document] (lines 329-339)
    builds the record of an extracted pair. *)
Definition extracted_args (pair : string * string) (categoria_arg nivel_arg file_path : string)
  : QAItemArgs :=
  {| arg_id := None;
     arg_pregunta := Some (fst pair);
     arg_respuesta := Some (snd pair);
     arg_categoria := Some categoria_arg;
     arg_nivel := Some nivel_arg;
     arg_tema := None;
     arg_fuentes := Some [file_path];
     arg_palabras_clave := None;
     arg_idioma := None;
     arg_confianza := None;
     arg_metadatos :=
       Some [("metodo_extraccion"%string, PStr "extraccion_directa");
             ("documento_fuente"%string, PStr file_path)];
     arg_fecha_creacion := None |}.
(** * The properties in the spec's words

    Definitions that follow the wording of the specification; the
    theorems compare them with the definitions taken from the code. *)

(** ** The merge rule *)

(** The merge rule in the spec's words, on two record values: union of
    sources and of keywords, the longer answer when it is more than 20%
    longer, mean of the confidences. *)
Definition merged_record (existing incoming : QAItem) : QAItem :=
  {| id := id existing;
     pregunta := pregunta existing;
     respuesta :=
       if Qltb (Qlen (respuesta existing) * (12 # 10)) (Qlen (respuesta incoming))
       then respuesta incoming else respuesta existing;
     categoria := categoria existing;
     nivel := nivel existing;
     tema := tema existing;
     fuentes := list_set (fuentes existing ++ fuentes incoming);
     palabras_clave := list_set (palabras_clave existing ++ palabras_clave incoming);
     idioma := idioma existing;
     confianza := ((confianza existing + confianza incoming) / 2)%Q;
     metadatos := metadatos existing;
     fecha_creacion := fecha_creacion existing |}.

(** ** The constraints of a filter mapping *)

(** The keys [filter_items] looks up. *)
Definition recognized_keys : list string :=
  ["categoria"; "nivel"; "tema"; "confianza_minima"]%string.

(** *** The checks of [filter_items], as boolean tests

    What the four blocks of [filter_items] compute, gathered in one test
    on the mapping and one on a record. *)

(** A text constraint is usable when its value, if active, is a string. *)
Definition text_ok (f : gmap string pyval) (k : string) : bool :=
  match active f k with
  | Some (PStr _) | None => true
  | Some _ => false
  end.

(** The bound, if active, is a value [float] accepts. *)
Definition number_ok (float_of_str : string -> option pyfloat) (f : gmap string pyval) : bool :=
  match active f "confianza_minima" with
  | Some v => match py_float float_of_str v with Ok _ => true | Raise _ => false end
  | None => true
  end.

(** The filter mappings on which [filter_items] raises nothing. *)
Definition well_typed (float_of_str : string -> option pyfloat) (f : gmap string pyval) : bool :=
  text_ok f "categoria" && text_ok f "nivel" && text_ok f "tema" && number_ok float_of_str f.

(** An active text constraint tests the lower-cased filter value. *)
Definition text_constraint (f : gmap string pyval) (k : string) (test : string -> bool) : bool :=
  match active f k with
  | Some (PStr s) => test (lower s)
  | _ => true
  end.

(** The active bound is at most the record's confidence. *)
Definition number_constraint (float_of_str : string -> option pyfloat) (f : gmap string pyval)
  (x : QAItem) : bool :=
  match active f "confianza_minima" with
  | Some v =>
      match py_float float_of_str v with
      | Ok y => py_ge (confianza x) y
      | Raise _ => true
      end
  | None => true
  end.

(** The test the four blocks of [filter_items] make on a record, as one
    boolean function. *)
Definition satisfies (float_of_str : string -> option pyfloat) (f : gmap string pyval)
  (x : QAItem) : bool :=
  text_constraint f "categoria" (fun c => String.eqb (lower (categoria x)) c) &&
  text_constraint f "nivel" (fun n => String.eqb (lower (nivel x)) n) &&
  text_constraint f "tema" (fun t => contains t (lower (tema x))) &&
  number_constraint float_of_str f x.

(** *** The constraints in the spec's words

    Stated without the functions of the code: what an empty value is,
    what a value under a key asks of a record, which number a bound
    stands for. *)

(** The values that count as empty: a key holding one is no constraint. *)
Inductive empty_value : pyval -> Prop :=
  | empty_none : empty_value PNone
  | empty_false : empty_value (PBool false)
  | empty_zero : empty_value (PInt 0)
  | empty_float_zero (q : Q) : (q == 0)%Q -> empty_value (PFloat q)
  | empty_text : empty_value (PStr EmptyString)
  | empty_list : empty_value (PStrList []).

(** The mapping [f] puts the constraint [v] under the key [k]: the key is
    present and its value is not empty. *)
Definition constrains (f : gmap string pyval) (k : string) (v : pyval) : Prop :=
  f !! k = Some v /\ ~ empty_value v.

(** Equal up to the case of the letters. *)
Definition equal_up_to_case (a b : string) : Prop := lower a = lower b.

(** [sub] occurs in [s]: [s] is [sub] between two strings. *)
Definition occurs_in (sub s : string) : Prop :=
  exists before after : string, s = (before +:+ sub +:+ after)%string.

(** [sub] occurs in [s] up to the case of the letters. *)
Definition occurs_up_to_case (sub s : string) : Prop := occurs_in (lower sub) (lower s).

(** The number a bound stands for: a float is itself, an integer that
    fits a double and a boolean are their value, a string is the number
    it spells.  Nothing else is a bound. *)
Inductive bound_of (float_of_str : string -> option pyfloat) : pyval -> pyfloat -> Prop :=
  | bound_float (q : Q) : bound_of float_of_str (PFloat q) (Finite q)
  | bound_infinity (negative : bool) :
      bound_of float_of_str (PInf negative) (Infinity negative)
  | bound_nan : bound_of float_of_str PNaN NaN
  | bound_int (z : Z) :
      - DBL_OVERFLOW < z < DBL_OVERFLOW ->
      bound_of float_of_str (PInt z) (Finite (inject_Z z))
  | bound_true : bound_of float_of_str (PBool true) (Finite 1)
  | bound_false : bound_of float_of_str (PBool false) (Finite 0)
  | bound_spelled (s : string) (y : pyfloat) :
      float_of_str s = Some y -> bound_of float_of_str (PStr s) y.

(** The confidence [x] is at least the bound, inclusive.  No confidence
    is at least nan or plus infinity. *)
Inductive at_least (x : Q) : pyfloat -> Prop :=
  | at_least_finite (q : Q) : (q <= x)%Q -> at_least x (Finite q)
  | at_least_minus_infinity : at_least x (Infinity true).

(** The record [x] satisfies the constraints [f] puts under the four
    keys: category and level equal up to case, topic occurring up to
    case, confidence at least the bound. *)
Record meets (float_of_str : string -> option pyfloat) (f : gmap string pyval)
  (x : QAItem) : Prop := {
  meets_category :
    forall s, constrains f "categoria" (PStr s) -> equal_up_to_case (categoria x) s;
  meets_level :
    forall s, constrains f "nivel" (PStr s) -> equal_up_to_case (nivel x) s;
  meets_topic :
    forall s, constrains f "tema" (PStr s) -> occurs_up_to_case s (tema x);
  meets_confidence :
    forall v y, constrains f "confianza_minima" v -> bound_of float_of_str v y ->
                at_least (confianza x) y
}.

(** The mappings whose constraints can be read: text under the text
    keys, a bound under [confianza_minima]. *)
Definition readable (float_of_str : string -> option pyfloat) (f : gmap string pyval) : Prop :=
  (forall k v, In k ["categoria"; "nivel"; "tema"]%string -> constrains f k v ->
               exists s, v = PStr s) /\
  (forall v, constrains f "confianza_minima" v -> exists y, bound_of float_of_str v y).

(** The keywords constraint of the specification: some term occurs, up
    to case, in the question or in the answer. *)
Definition mentions (terms : list string) (x : QAItem) : Prop :=
  exists t, In t terms /\
    (occurs_up_to_case t (pregunta x) \/ occurs_up_to_case t (respuesta x)).

(** ** The mean *)

(** The arithmetic mean in the spec's words: the sum of the values over
    their number. *)
Definition arithmetic_mean (l : list Q) : Q :=
  (fold_right Qplus 0 l / inject_Z (Z.of_nat (length l)))%Q.

(** ** The order of the columns *)

(** Lexicographic order by code points, as [sorted] compares strings. *)
Definition str_le (a b : string) : Prop := String.leb a b = true.

Definition str_lt (a b : string) : Prop := String.ltb a b = true.


(** ** What a merge may change *)

(** Two values of a record that differ at most in the sources, the
    keywords, the answer and the confidence. *)
Definition same_identity (x y : QAItem) : Prop :=
  id x = id y /\ pregunta x = pregunta y /\ categoria x = categoria y /\
  nivel x = nivel y /\ tema x = tema y /\ idioma x = idioma y /\
  metadatos x = metadatos y /\ fecha_creacion x = fecha_creacion y.

(** The sources and keywords of [x] are among those of [y]. *)
Definition provenance_kept (x y : QAItem) : Prop :=
  (forall s, s ∈ fuentes x -> s ∈ fuentes y) /\
  (forall s, s ∈ palabras_clave x -> s ∈ palabras_clave y).

(** A confidence within the bounds [QAItem] declares. *)
Definition confidence_in_range (x : QAItem) : Prop :=
  (0 <= confianza x)%Q /\ (confianza x <= 1)%Q.

(** No record of [l] is similar to a record before it ([seen] first):
    the test the merge makes, with the record as [item] and the earlier
    one as [existing_item]. *)
Fixpoint dissimilar_from (ratio : string -> string -> Q) (thr : Q) (h : store)
  (seen l : list ref) : bool :=
  match l with
  | [] => true
  | x :: l' =>
      forallb (fun y => negb (is_similar ratio thr (h x) (h y))) seen &&
      dissimilar_from ratio thr h (seen ++ [x]) l'
  end.

(** ** Frequency tables *)

(** The number of records of [l] whose tag [key] is [k]. *)
Definition occurrences (key : QAItem -> string) (h : store) (l : list ref) (k : string) : nat :=
  length (List.filter (fun r => String.eqb (key (h r)) k) l).

(** A table has an entry for the keys that occur, and only for them. *)
Definition frequency (n : nat) : option nat :=
  if Nat.eqb n 0 then None else Some n.

(** [d] is the frequency table of the tag [key] over [l]: one entry per
    value that occurs, holding the number of its occurrences. *)
Definition is_frequency_table (key : QAItem -> string) (h : store) (l : list ref)
  (d : list (string * nat)) : Prop :=
  NoDup (keys d) /\
  (forall k, dict_get k d = frequency (occurrences key h l k)) /\
  sum_list (map snd d) = length l.

(** By decreasing count. *)
Definition count_ge (a b : string * nat) : Prop := (snd b <= snd a)%nat.

(** The number of records the batches of origin [k] hold: the sum of
    [len(batch.items)] over them.  The unifier keeps the batch objects
    it was given, so [bs] stands for these objects as they are when the
    statistics are taken, not as they were when ingested. *)
Definition held_by_origin (bs : list QABatch) (k : string) : nat :=
  sum_list (map (fun b => length (items b)) (List.filter (fun b => String.eqb (origen b) k) bs)).

(** ** The projection of a record *)

(** The eleven fields every export row holds. *)
Definition base_row (isoformat : datetime -> string) (item : QAItem) : row :=
  [("id", PStr (id item));
   ("pregunta", PStr (pregunta item));
   ("respuesta", PStr (respuesta item));
   ("categoria", PStr (categoria item));
   ("nivel", PStr (nivel item));
   ("tema", PStr (tema item));
   ("idioma", PStr (idioma item));
   ("confianza", PFloat (confianza item));
   ("fecha_creacion", PStr (isoformat (fecha_creacion item)));
   ("fuentes", PStr (joined (fuentes item)));
   ("palabras_clave", PStr (joined (palabras_clave item)))]%string.

(** Their names, in lexicographic order. *)
Definition base_columns : list string :=
  ["categoria"; "confianza"; "fecha_creacion"; "fuentes"; "id"; "idioma"; "nivel";
   "palabras_clave"; "pregunta"; "respuesta"; "tema"]%string.

(** The metadata entries added to a row: [meta_k] holds [str] of the
    value under [k]. *)
Definition with_metadata (py_str : pyval -> string) (md : list (string * pyval)) (r : row)
  : row :=
  fold_left (fun r kv => dict_set ("meta_" +:+ fst kv) (PStr (py_str (snd kv))) r) md r.

(** ** Ingestion *)

(** The unified collection lists the records of the ingested batches, in
    the order of ingestion. *)
Definition consistent (u : QADataUnifier) : Prop :=
  unified_items u = concat (map items (batches u)).

(** ** Counting loops *)

(** One turn of a counting loop: an element that passes [guard] adds its
    [weight] under its [key]. *)
Definition count_step {A} (key : A -> string) (weight : A -> nat) (guard : A -> bool)
  (d : list (string * nat)) (a : A) : list (string * nat) :=
  if guard a then count_add (key a) (weight a) d else d.

(** The elements counted under [k]. *)
Definition selected {A} (key : A -> string) (guard : A -> bool) (k : string) (a : A) : bool :=
  guard a && String.eqb (key a) k.

(** ** Extracted pairs *)

(** A pair (question, answer) worth keeping. *)
Definition good_pair (qa : string * string) : Prop :=
  (10 < len (fst qa))%nat /\ (20 < len (snd qa))%nat /\ contains "?" (fst qa) = true.

(** The questions of the pairs, lower-cased. *)
Definition lowered (l : list (string * string)) : list string :=
  map (fun qa => lower (fst qa)) l.

(** * Concrete data for the examples *)

Definition args_of (q r : string) : QAItemArgs :=
  {| arg_id := None; arg_pregunta := Some q; arg_respuesta := Some r;
     arg_categoria := None; arg_nivel := None; arg_tema := None;
     arg_fuentes := None; arg_palabras_clave := None; arg_idioma := None;
     arg_confianza := None; arg_metadatos := None; arg_fecha_creacion := None |}.

Definition padded_args : QAItemArgs :=
  args_of "   Why?   " "Because the sky scatters blue light.".

Definition shouting_args : QAItemArgs :=
  {| arg_id := None;
     arg_pregunta := Some "What is Python?"%string;
     arg_respuesta := Some "Python is a programming language."%string;
     arg_categoria := Some " Programming "%string;
     arg_nivel := Some "avanzado"%string;
     arg_tema := Some "  Data TYPES"%string;
     arg_fuentes := None; arg_palabras_clave := None;
     arg_idioma := Some " EN "%string;
     arg_confianza := None; arg_metadatos := None; arg_fecha_creacion := None |}.

(** Two records with the same question: answers of 20 and of 25
    characters, confidences 0.6 and 1.0. *)
Definition record_20 : QAItem :=
  {| id := "a"; pregunta := "What is Python?"; respuesta := "Python is a language";
     categoria := "general"; nivel := "intermedio"; tema := "";
     fuentes := ["python.org"]%string; palabras_clave := ["python"]%string;
     idioma := "es"; confianza := (6 # 10)%Q; metadatos := [];
     fecha_creacion := 0 |}.

Definition record_25 : QAItem :=
  {| id := "b"; pregunta := "What is Python?"; respuesta := "Python is a fine language";
     categoria := "general"; nivel := "intermedio"; tema := "";
     fuentes := ["docs.python.org"; "python.org"]%string;
     palabras_clave := ["language"]%string;
     idioma := "es"; confianza := 1%Q; metadatos := [];
     fecha_creacion := 0 |}.

(** Object 0 is [record_20]; every other object is [record_25]. *)
Definition two_records : store :=
  fun r => match r with O => record_20 | _ => record_25 end.

Definition two_unified : QADataUnifier :=
  {| batches := []; unified_items := [0; 1]%nat |}.

(** The examples pass no string where [float] is called, so the stand-in
    for [float] on strings used to close them accepts none. *)
Definition float_of_no_str : string -> option pyfloat := fun _ => None.

Definition keyword_filters : gmap string pyval :=
  <["palabras_clave"%string := PStrList ["quantum"]%string]>
    (<["keywords"%string := PStrList ["quantum"]%string]> ∅).

(** A number where [filter_items] expects the name of a category. *)
Definition number_category_filters : gmap string pyval :=
  <["categoria"%string := PInt 5]> ∅.

Definition python_filters : gmap string pyval :=
  <["tema"%string := PStr "Python"]> (<["confianza_minima"%string := PFloat (5 # 10)]> ∅).

(** Three records with topics "python basics", "" and "python"; the first
    has confidence 0.6. *)
Definition three_records : store :=
  fun r =>
    match r with
    | O => set_confianza (mkQAItem "a" "What is Python?" "Python is a language" "general"
                            "intermedio" "python basics" [] [] "es" 1 [] 0) (6 # 10)
    | 1%nat => record_25
    | _ => mkQAItem "c" "What is a list?" "A list is a sequence." "general"
             "avanzado" "python" [] [] "es" (9 # 10) [] 0
    end.

Definition three_unified : QADataUnifier :=
  {| batches := []; unified_items := [0; 1; 2]%nat |}.

(** Stand-ins for [str] on metadata values and for the two [datetime]
    formats, used to close the examples: [str] is given on strings,
    booleans and [None], and every date is written as the same instant. *)
Definition str_of_value (v : pyval) : string :=
  match v with
  | PStr s => s
  | PBool true => "True"
  | PBool false => "False"
  | PNone => "None"
  | PInt _ | PFloat _ | PStrList _ | PInf _ | PNaN => ""
  end.

Definition fixed_isoformat : datetime -> string := fun _ => "2024-01-01T00:00:00"%string.

(** A world with no file, in which every write succeeds. *)
Definition empty_world : world :=
  {| files := ∅; dirs := ∅; writable := fun _ => true; creatable := fun _ => true;
     log := [] |}.

(** Record 0 carries one metadata entry, the others none. *)
Definition records_with_metadata : store :=
  fun r =>
    match r with
    | O => mkQAItem "a" "What is Python?" "Python is a language" "general"
             "intermedio" "" ["python.org"; "docs"]%string [] "es" 1
             [("autor"%string, PStr "test")] 0
    | _ => record_25
    end.

Definition one_batch : QABatch :=
  {| batch_id := "b1"; items := [0%nat]; origen := "prompt";
     prompt_original := None; documento_fuente := None;
     parametros_generacion := []; estadisticas := []; batch_fecha_creacion := 0 |}.

(** Two records that have little in common. *)
Definition unlike_records : store :=
  fun r =>
    match r with
    | O => record_20
    | _ => mkQAItem "z" "How do birds fly so far?"
             "They glide on warm air for hours." "nature" "avanzado" "birds"
             ["atlas"]%string [] "en" (1 # 2) [] 0
    end.

Definition three_with_batch : QADataUnifier :=
  {| batches := [one_batch]; unified_items := [0; 1; 2]%nat |}.

(** A batch that holds no record. *)
Definition empty_batch : QABatch :=
  {| batch_id := "b0"; items := []; origen := "manual";
     prompt_original := None; documento_fuente := None;
     parametros_generacion := []; estadisticas := []; batch_fecha_creacion := 0 |}.

(** The unifier after [one_batch] and [empty_batch]. *)
Definition with_empty_batch : QADataUnifier :=
  {| batches := [one_batch; empty_batch]; unified_items := [0%nat] |}.

(** The unifier after [empty_batch] alone. *)
Definition only_empty_batch : QADataUnifier :=
  {| batches := [empty_batch]; unified_items := [] |}.

Definition prompt_request_args : GenerationRequestArgs :=
  {| arg_tipo := Some "prompt"%string; arg_prompt := Some (Some "Test prompt"%string);
     arg_gr_tema := None; arg_gr_categoria := Some (Some "test"%string);
     arg_gr_nivel := Some (Some basico); arg_num_preguntas := Some (Some 5);
     arg_documento_path := None; arg_modelo := None; arg_gr_idioma := None;
     arg_usar_busqueda_avanzada := None |}.

(** Stand-ins for [pathlib] and [strftime], used to close the examples:
    paths are joined with a slash, the parent of every path is the
    output directory, and no directory above it is listed. *)
Definition join_with_slash (a b : string) : string := a +:+ "/" +:+ b.

Definition parent_is_output : string -> string := fun _ => "data/output"%string.

Definition no_ancestors : string -> list string := fun _ => [].

Definition fixed_strftime : datetime -> string := fun _ => "20240101_000000"%string.

Definition csv_config : ExportConfig :=
  {| formato := "csv"; incluir_metadatos := true; filtros := ∅;
     ruta_salida := None; nombre_archivo := Some "report"%string |}.

(** A name without extension, in a directory of the caller's. *)
Definition own_directory_config : ExportConfig :=
  {| formato := "csv"; incluir_metadatos := false; filtros := ∅;
     ruta_salida := Some "exports/mine"%string; nombre_archivo := Some "report"%string |}.

Definition xlsx_config : ExportConfig :=
  {| formato := "xlsx"; incluir_metadatos := true; filtros := ∅;
     ruta_salida := None; nombre_archivo := None |}.

(** A stand-in for [re.findall], used to close the examples: whatever
    the pattern and the text, the same two matches. *)
Definition two_matches : string -> string -> list (string * string) :=
  fun _ _ =>
    [("  What is Python really?"%string, "Python is a programming language. "%string);
     ("Why?"%string, "No."%string)].

(** * Properties *)

(** ** Strings *)

Lemma lower_char_idem (c : ascii) : lower_char (lower_char c) = lower_char c.
Proof. destruct c as [[] [] [] [] [] [] [] []]; reflexivity. Qed.

Lemma is_space_lower_char (c : ascii) : is_space (lower_char c) = is_space c.
Proof. destruct c as [[] [] [] [] [] [] [] []]; reflexivity. Qed.

Lemma lower_idem (s : string) : lower (lower s) = lower s.
Proof. induction s as [|c s IH]; simpl; [reflexivity|]. by rewrite lower_char_idem, IH. Qed.

Lemma lower_lstrip (s : string) : lower (lstrip s) = lstrip (lower s).
Proof.
  induction s as [|c s IH]; simpl; [reflexivity|].
  rewrite is_space_lower_char. destruct (is_space c); [exact IH | reflexivity].
Qed.

Lemma lower_rstrip (s : string) : lower (rstrip s) = rstrip (lower s).
Proof.
  induction s as [|c s IH]; simpl; [reflexivity|].
  rewrite <- IH, is_space_lower_char.
  destruct (rstrip s); simpl; [destruct (is_space c)|]; reflexivity.
Qed.

Lemma lower_strip (s : string) : lower (strip s) = strip (lower s).
Proof. unfold strip. by rewrite lower_rstrip, lower_lstrip. Qed.

Lemma rstrip_idem (s : string) : rstrip (rstrip s) = rstrip s.
Proof.
  induction s as [|c s IH]; simpl; [reflexivity|].
  destruct (rstrip s) as [|d r] eqn:E.
  - destruct (is_space c) eqn:Ec; simpl; [reflexivity | by rewrite Ec].
  - simpl in *. by rewrite IH.
Qed.

(** A string that does not start with a space keeps its first character
    under [rstrip], so [lstrip] has nothing to remove afterwards. *)
Lemma lstrip_rstrip_lstrip (s : string) : lstrip (rstrip (lstrip s)) = rstrip (lstrip s).
Proof.
  induction s as [|c s IH]; simpl; [reflexivity|].
  destruct (is_space c) eqn:Ec; [exact IH|].
  simpl. destruct (rstrip s); rewrite ?Ec; simpl; by rewrite Ec.
Qed.

Lemma strip_idem (s : string) : strip (strip s) = strip s.
Proof. unfold strip. by rewrite lstrip_rstrip_lstrip, rstrip_idem. Qed.

Lemma lowercase_category_theme_normalized (s : string) :
  normalized (lowercase_category_theme s).
Proof.
  unfold normalized, lowercase_category_theme. split.
  - by rewrite lower_strip, lower_idem.
  - apply strip_idem.
Qed.

Lemma niveles_validos_normalized (s : string) :
  In s niveles_validos -> normalized s.
Proof.
  intros [<- | [<- | [<- | []]]]; split; reflexivity.
Qed.

(** ** Construction of a [QAItem] *)

Lemma validate_nivel_Some (s n : string) :
  validate_nivel s = Some n -> n = s /\ In s niveles_validos.
Proof.
  unfold validate_nivel. destruct (existsb _ _) eqn:E; [|discriminate].
  intros [= <-]. split; [reflexivity|].
  apply existsb_exists in E as (x & Hx & Heq).
  apply String.eqb_eq in Heq. by subst.
Qed.

(** What a successful construction stores, field by field. *)
Lemma QAItem_init_Ok (uuid : string) (now : datetime) (a : QAItemArgs) (it : QAItem) :
  QAItem_init uuid now a = Ok it ->
  validate_text 10 (arg_pregunta a) = Some (pregunta it) /\
  validate_text 20 (arg_respuesta a) = Some (respuesta it) /\
  with_default "general"%string (fun s => Some (lowercase_category_theme s))
    (arg_categoria a) = Some (categoria it) /\
  with_default "intermedio"%string validate_nivel (arg_nivel a) = Some (nivel it) /\
  with_default EmptyString (fun s => Some (lowercase_category_theme s))
    (arg_tema a) = Some (tema it) /\
  idioma it = default "es"%string (arg_idioma a).
Proof.
  unfold QAItem_init.
  destruct (validate_text 10 _), (validate_text 20 _),
    (with_default "general"%string _ _), (with_default "intermedio"%string _ _),
    (with_default EmptyString _ _), (with_default (8 # 10)%Q _ _);
    try discriminate.
  intros [= <-]. simpl. auto 10.
Qed.

Lemma validate_text_Some (n : nat) (v : option string) (s : string) :
  validate_text n v = Some s ->
  exists raw, v = Some raw /\ (n <= len raw)%nat /\ s = strip raw.
Proof.
  unfold validate_text, clean_text. destruct v as [raw|]; [|discriminate].
  destruct (Nat.leb n (len raw)) eqn:E; [|discriminate].
  intros [= <-]. exists raw. apply Nat.leb_le in E. auto.
Qed.

(** C10.  The minimum lengths of the question (10) and of the answer (20)
    are checked on the text as passed, and the trimmed text is what is
    stored; so a question that reaches 10 characters only through its
    surrounding blanks is accepted and stored with fewer than 10. *)
Theorem min_length_checked_before_strip :
  (forall uuid now a it,
      QAItem_init uuid now a = Ok it ->
      exists q r,
        arg_pregunta a = Some q /\ arg_respuesta a = Some r /\
        (10 <= len q)%nat /\ (20 <= len r)%nat /\
        pregunta it = strip q /\ respuesta it = strip r) /\
  (exists it,
      QAItem_init "uuid-1" 0 padded_args = Ok it /\
      arg_pregunta padded_args = Some "   Why?   "%string /\
      len "   Why?   " = 10%nat /\
      pregunta it = "Why?"%string /\
      (len (pregunta it) < 10)%nat).
Proof.
  split.
  - intros uuid now a it H.
    apply QAItem_init_Ok in H as (Hp & Hr & _).
    apply validate_text_Some in Hp as (q & Hq & Hlq & ->).
    apply validate_text_Some in Hr as (r & Hr & Hlr & ->).
    exists q, r. auto 10.
  - eexists. split; [reflexivity|]. simpl. repeat split; lia.
Qed.

(** C7, as stated, fails on the language tag: a record built with the
    language " EN " is accepted and stores " EN ", neither lower-cased nor
    trimmed (its category and topic are normalized). *)
Lemma idioma_not_normalized :
  exists it,
    QAItem_init "uuid-1" 0 shouting_args = Ok it /\
    categoria it = "programming"%string /\
    tema it = "data types"%string /\
    idioma it = " EN "%string /\
    lower (idioma it) <> idioma it /\
    strip (idioma it) <> idioma it.
Proof.
  eexists. split; [reflexivity|]. simpl. repeat split; discriminate.
Qed.

(** C7, amended.  On construction the category and the topic are
    lower-cased and trimmed; the level is not rewritten but has to be one
    of the three literals, which are lower-case and trimmed; the language
    is stored as passed (default "es"). *)
Theorem tags_on_construction (uuid : string) (now : datetime) (a : QAItemArgs) (it : QAItem) :
  QAItem_init uuid now a = Ok it ->
  categoria it = from_option lowercase_category_theme "general"%string (arg_categoria a) /\
  tema it = from_option lowercase_category_theme EmptyString (arg_tema a) /\
  normalized (categoria it) /\
  normalized (tema it) /\
  nivel it = default "intermedio"%string (arg_nivel a) /\
  In (nivel it) niveles_validos /\
  normalized (nivel it) /\
  idioma it = default "es"%string (arg_idioma a).
Proof.
  intros H. apply QAItem_init_Ok in H as (_ & _ & Hc & Hn & Ht & Hi).
  assert (Hcat : categoria it =
                 from_option lowercase_category_theme "general"%string (arg_categoria a)).
  { destruct (arg_categoria a); simpl in *; congruence. }
  assert (Htem : tema it =
                 from_option lowercase_category_theme EmptyString (arg_tema a)).
  { destruct (arg_tema a); simpl in *; congruence. }
  assert (Hniv : nivel it = default "intermedio"%string (arg_nivel a) /\
                 In (nivel it) niveles_validos).
  { destruct (arg_nivel a) as [n|]; simpl in *.
    - apply validate_nivel_Some in Hn as [-> Hin]. auto.
    - injection Hn as <-. split; [reflexivity|]. right; left; reflexivity. }
  destruct Hniv as [Hniv Hin].
  repeat split; try assumption.
  - rewrite Hcat. destruct (arg_categoria a); simpl;
      [apply lowercase_category_theme_normalized | reflexivity].
  - rewrite Hcat. destruct (arg_categoria a); simpl;
      [apply lowercase_category_theme_normalized | reflexivity].
  - rewrite Htem. destruct (arg_tema a); simpl;
      [apply lowercase_category_theme_normalized | reflexivity].
  - rewrite Htem. destruct (arg_tema a); simpl;
      [apply lowercase_category_theme_normalized | reflexivity].
  - by apply niveles_validos_normalized.
  - by apply niveles_validos_normalized.
Qed.

Lemma tags_on_construction_witness :
  exists it,
    QAItem_init "uuid-1" 0 shouting_args = Ok it /\
    categoria it = "programming"%string /\
    normalized (tema it) /\
    nivel it = "avanzado"%string /\
    idioma it = " EN "%string.
Proof.
  eexists. split; [reflexivity|].
  pose proof (tags_on_construction "uuid-1" 0 shouting_args _ eq_refl)
    as (Hc & _ & _ & Ht & Hn & _ & _ & Hi).
  repeat split; solve [exact Hc | apply Ht | exact Hn | exact Hi].
Defined.

(** ** The similarity merger *)

Lemma assign_same (h : store) (r : ref) (x : QAItem) : assign h r x r = x.
Proof. unfold assign. by rewrite Nat.eqb_refl. Qed.

Lemma assign_other (h : store) (r r' : ref) (x : QAItem) : r' <> r -> assign h r x r' = h r'.
Proof. unfold assign. intros H. apply Nat.eqb_neq in H. by rewrite H. Qed.

(** The assignments of the loop body amount to the merge rule, also when
    the incoming record is the existing object itself. *)
Lemma merge_into_existing (h : store) (e it : ref) :
  merge_into h e it e = merged_record (h e) (h it).
Proof.
  unfold merge_into, merged_record.
  destruct (Nat.eq_dec it e) as [-> | Hne].
  - repeat (rewrite ?assign_same; simpl).
    destruct (Qltb _ _); rewrite ?assign_same; reflexivity.
  - repeat (rewrite ?assign_same, ?(assign_other _ e it) by exact Hne; simpl).
    destruct (Qltb _ _);
      repeat (rewrite ?assign_same, ?(assign_other _ e it) by exact Hne; simpl);
      reflexivity.
Qed.

Lemma merge_into_other (h : store) (e it r : ref) :
  r <> e -> merge_into h e it r = h r.
Proof.
  intros Hne. unfold merge_into.
  rewrite assign_other by exact Hne.
  destruct (Qltb _ _); repeat (rewrite assign_other by exact Hne); reflexivity.
Qed.

Lemma list_set_NoDup (l : list string) : NoDup (list_set l).
Proof. unfold list_set. apply NoDup_elements. Qed.

Lemma list_set_elem_of (l : list string) (s : string) : s ∈ list_set l <-> s ∈ l.
Proof. unfold list_set. rewrite elem_of_elements. apply elem_of_list_to_set. Qed.

(** The test [len(item.respuesta) > len(existing.respuesta) * 1.2] in
    whole numbers. *)
Lemma longer_by_20_percent (existing incoming : string) :
  Qltb (Qlen existing * (12 # 10)) (Qlen incoming) = true <->
  (6 * len existing < 5 * len incoming)%nat.
Proof.
  unfold Qltb, Qlen. rewrite negb_true_iff, <- not_true_iff_false, Qle_bool_iff.
  unfold Qle, Qmult, inject_Z. simpl. lia.
Qed.

Section Merger.

Variable ratio : string -> string -> Q.
Variable thr : Q.

Lemma scan_merged_first_match (h : store) (it : ref) (pre : list ref) (e : ref)
  (post : list ref) :
  Forall (fun x => is_similar ratio thr (h it) (h x) = false) pre ->
  is_similar ratio thr (h it) (h e) = true ->
  scan_merged ratio thr h it (pre ++ e :: post) = Some (merge_into h e it).
Proof.
  intros Hpre He. induction Hpre as [|x pre Hx _ IH]; simpl.
  - by rewrite He.
  - by rewrite Hx.
Qed.

Lemma scan_merged_no_match (h : store) (it : ref) (merged : list ref) :
  Forall (fun x => is_similar ratio thr (h it) (h x) = false) merged ->
  scan_merged ratio thr h it merged = None.
Proof.
  intros H. induction H as [|x l Hx _ IH]; simpl; [reflexivity|]. by rewrite Hx.
Qed.

(** Each turn of the outer loop either counts a merge or lengthens the
    output list by one. *)
Lemma process_item_balance (h : store) (merged : list ref) (c : nat) (it : ref) :
  let '(_, merged', c') := process_item ratio thr (h, merged, c) it in
  (length merged' + c' = length merged + c + 1)%nat.
Proof.
  unfold process_item. destruct (scan_merged _ _ _ _ _).
  - lia.
  - rewrite length_app. simpl. lia.
Qed.

Lemma merge_loop_balance (its : list ref) (h : store) (merged : list ref) (c : nat) :
  let '(_, merged', c') := fold_left (process_item ratio thr) its (h, merged, c) in
  (length merged' + c' = length merged + c + length its)%nat.
Proof.
  revert h merged c. induction its as [|it its IH]; intros h merged c; cbn [fold_left].
  - simpl. lia.
  - pose proof (process_item_balance h merged c it) as Hstep.
    destruct (process_item ratio thr (h, merged, c) it) as [[h1 m1] c1].
    specialize (IH h1 m1 c1).
    destruct (fold_left _ its (h1, m1, c1)) as [[h2 m2] c2].
    cbn [length]. lia.
Qed.

End Merger.

(** C6.  Merging never lengthens the collection, and the count it returns
    is the input length minus the output length, for every similarity
    function and threshold. *)
Theorem merge_count_is_length_reduction (ratio : string -> string -> Q) (thr : Q)
  (h : store) (u : QADataUnifier) :
  let out := merge_similar_items ratio thr h u in
  (length (unified_items (snd (fst out))) <= length (unified_items u))%nat /\
  snd out = (length (unified_items u) - length (unified_items (snd (fst out))))%nat /\
  batches (snd (fst out)) = batches u.
Proof.
  unfold merge_similar_items.
  pose proof (merge_loop_balance ratio thr (unified_items u) h [] O) as H.
  destruct (fold_left _ _ _) as [[h' merged] c]. simpl in *.
  repeat split; lia.
Qed.

(** C1, as stated, fails on its 25-character example: 25 exceeds
    20 * 1.2 = 24, so merging a record with a 25-character answer into one
    with a 20-character answer replaces the answer. *)
Lemma answer_of_25_replaces_answer_of_20 :
  let out := merge_similar_items SequenceMatcher.ratio (8 # 10) two_records two_unified in
  len (respuesta (two_records 0%nat)) = 20%nat /\
  len (respuesta (two_records 1%nat)) = 25%nat /\
  unified_items (snd (fst out)) = [0%nat] /\
  snd out = 1%nat /\
  respuesta (fst (fst out) 0%nat) = "Python is a fine language"%string.
Proof. vm_compute. repeat split; reflexivity. Qed.

(** C1, amended.  When the incoming record matches an output record [e]
    (the first one in the list's order), the record is not appended, the
    count grows by one, and [e] alone changes: its sources and its
    keywords become the duplicate-free union of both records', its answer
    becomes the incoming one exactly when the incoming length is more than
    1.2 times its own (on a 20-character answer: 24 characters do not
    replace it, 25 and 30 do), and its confidence becomes the mean of the
    two. *)
Theorem merge_rule_on_first_match (ratio : string -> string -> Q) (thr : Q) (h : store)
  (it : ref) (pre : list ref) (e : ref) (post : list ref) (c : nat) :
  Forall (fun x => is_similar ratio thr (h it) (h x) = false) pre ->
  is_similar ratio thr (h it) (h e) = true ->
  exists h',
    process_item ratio thr (h, pre ++ e :: post, c) it = (h', pre ++ e :: post, S c) /\
    h' e = merged_record (h e) (h it) /\
    (forall r, r <> e -> h' r = h r) /\
    NoDup (fuentes (h' e)) /\
    (forall s, s ∈ fuentes (h' e) <-> s ∈ fuentes (h e) \/ s ∈ fuentes (h it)) /\
    NoDup (palabras_clave (h' e)) /\
    (forall s, s ∈ palabras_clave (h' e) <->
               s ∈ palabras_clave (h e) \/ s ∈ palabras_clave (h it)) /\
    ((6 * len (respuesta (h e)) < 5 * len (respuesta (h it)))%nat ->
     respuesta (h' e) = respuesta (h it)) /\
    ((5 * len (respuesta (h it)) <= 6 * len (respuesta (h e)))%nat ->
     respuesta (h' e) = respuesta (h e)) /\
    (len (respuesta (h e)) = 20%nat ->
     (len (respuesta (h it)) = 24%nat -> respuesta (h' e) = respuesta (h e)) /\
     (len (respuesta (h it)) = 25%nat -> respuesta (h' e) = respuesta (h it)) /\
     (len (respuesta (h it)) = 30%nat -> respuesta (h' e) = respuesta (h it))) /\
    (confianza (h' e) == (confianza (h e) + confianza (h it)) / 2)%Q.
Proof.
  intros Hpre He. exists (merge_into h e it).
  assert (Hlong : (6 * len (respuesta (h e)) < 5 * len (respuesta (h it)))%nat ->
                  respuesta (merge_into h e it e) = respuesta (h it)).
  { intros Hlt. rewrite merge_into_existing. simpl.
    apply longer_by_20_percent in Hlt. by rewrite Hlt. }
  assert (Hshort : (5 * len (respuesta (h it)) <= 6 * len (respuesta (h e)))%nat ->
                   respuesta (merge_into h e it e) = respuesta (h e)).
  { intros Hle. rewrite merge_into_existing. simpl.
    destruct (Qltb _ _) eqn:E; [|reflexivity].
    apply longer_by_20_percent in E. lia. }
  split; [|split; [|split; [|split; [|split; [|split; [|split; [|split;
    [|split; [|split]]]]]]]]].
  - unfold process_item. by rewrite (scan_merged_first_match ratio thr h it pre e post).
  - apply merge_into_existing.
  - intros r Hr. by apply merge_into_other.
  - rewrite merge_into_existing. apply list_set_NoDup.
  - intros s. rewrite merge_into_existing. simpl.
    rewrite list_set_elem_of. apply elem_of_app.
  - rewrite merge_into_existing. apply list_set_NoDup.
  - intros s. rewrite merge_into_existing. simpl.
    rewrite list_set_elem_of. apply elem_of_app.
  - exact Hlong.
  - exact Hshort.
  - intros H20. repeat split; intros Hn.
    + apply Hshort. lia.
    + apply Hlong. lia.
    + apply Hlong. lia.
  - rewrite merge_into_existing. simpl. reflexivity.
Qed.

Lemma merge_rule_on_first_match_witness :
  exists h',
    process_item SequenceMatcher.ratio (8 # 10) (two_records, [0%nat], O) 1%nat
    = (h', [0%nat], 1%nat) /\
    h' 0%nat = merged_record record_20 record_25.
Proof.
  destruct (merge_rule_on_first_match SequenceMatcher.ratio (8 # 10) two_records
              1%nat [] 0%nat [] O) as (h' & Hstep & Hval & _).
  - constructor.
  - vm_compute. reflexivity.
  - exists h'. split; [exact Hstep | exact Hval].
Defined.

(** ** The filter engine *)

Lemma filter_and {A} (p q : A -> bool) (l : list A) :
  List.filter q (List.filter p l) = List.filter (fun x => p x && q x) l.
Proof.
  induction l as [|a l IH]; simpl; [reflexivity|].
  destruct (p a); simpl; [destruct (q a)|]; by rewrite IH.
Qed.

Lemma filter_true {A} (l : list A) : List.filter (fun _ => true) l = l.
Proof. induction l as [|a l IH]; simpl; [reflexivity|]. by rewrite IH. Qed.

Lemma filter_sublist {A} (p : A -> bool) (l : list A) : sublist (List.filter p l) l.
Proof.
  induction l as [|a l IH]; simpl; [constructor|].
  destruct (p a); by constructor.
Qed.

Lemma active_empty (k : string) : active ∅ k = None.
Proof. unfold active. by rewrite lookup_empty. Qed.

Lemma active_insert_ne (f : gmap string pyval) (k k' : string) (v : pyval) :
  k <> k' -> active (<[k := v]> f) k' = active f k'.
Proof. intros H. unfold active. by rewrite lookup_insert_ne. Qed.

Section Filter.

Variable float_of_str : string -> option pyfloat.
Variable h : store.
Variable u : QADataUnifier.

(** [filter_items] reads the mapping through the four keys only. *)
Lemma filter_items_depends_on_active (f g : gmap string pyval) :
  (forall k, In k recognized_keys -> active f k = active g k) ->
  filter_items float_of_str h u f = filter_items float_of_str h u g.
Proof.
  intros H. unfold filter_items.
  rewrite (H "categoria"%string), (H "nivel"%string), (H "tema"%string),
    (H "confianza_minima"%string); [reflexivity | | | |]; simpl; tauto.
Qed.

Ltac two_filters :=
  rewrite ?filter_and;
  first [ reflexivity
        | apply List.filter_ext; intros ?; cbv beta;
          rewrite ?andb_true_r, ?andb_true_l, ?andb_assoc; reflexivity
        | symmetry; rewrite <- (filter_true (unified_items u)) at 2; symmetry;
          apply List.filter_ext; intros ?; reflexivity ].

Lemma filter_items_well_typed (f : gmap string pyval) :
  well_typed float_of_str f = true ->
  filter_items float_of_str h u f =
  Ok (List.filter (fun r => satisfies float_of_str f (h r)) (unified_items u)).
Proof.
  unfold well_typed, text_ok, number_ok, filter_items, satisfies,
    text_constraint, number_constraint.
  intros Hty.
  destruct (active f "categoria") as [[| | | |s1| | |]|]; simpl in Hty; try discriminate;
  destruct (active f "nivel") as [[| | | |s2| | |]|]; simpl in Hty; try discriminate;
  destruct (active f "tema") as [[| | | |s3| | |]|]; simpl in Hty; try discriminate;
  destruct (active f "confianza_minima") as [v|]; simpl in *;
  try (destruct (py_float float_of_str v) as [q|]; [|discriminate]; simpl);
  f_equal; two_filters.
Qed.

(** On any other mapping a [.lower()] or the [float(...)] raises. *)
Lemma filter_items_ill_typed (f : gmap string pyval) :
  well_typed float_of_str f = false ->
  exists e, filter_items float_of_str h u f = Raise e.
Proof.
  unfold well_typed, text_ok, number_ok, filter_items.
  intros Hty.
  destruct (active f "categoria") as [[| | | |s1| | |]|]; simpl in *;
    try (eexists; reflexivity);
  destruct (active f "nivel") as [[| | | |s2| | |]|]; simpl in *;
    try (eexists; reflexivity);
  destruct (active f "tema") as [[| | | |s3| | |]|]; simpl in *;
    try (eexists; reflexivity);
  (destruct (active f "confianza_minima") as [v|]; simpl in *; [|discriminate]);
  (destruct (py_float float_of_str v) as [q|e]; [discriminate|]);
  eexists; reflexivity.
Qed.

End Filter.

(** *** The code's checks against the constraints in the spec's words *)

Lemma truthy_empty (v : pyval) : truthy v = false <-> empty_value v.
Proof.
  split.
  - destruct v as [|[|]|z|q|s|l|n|]; simpl; try discriminate; intros H.
    + constructor.
    + constructor.
    + apply negb_false_iff, Z.eqb_eq in H. subst z. constructor.
    + apply negb_false_iff, Qeq_bool_iff in H. by constructor.
    + apply negb_false_iff, String.eqb_eq in H. subst s. constructor.
    + destruct l; [constructor | discriminate].
  - intros [| | |q Hq| |]; simpl; try reflexivity.
    apply negb_false_iff, Qeq_bool_iff, Hq.
Qed.

Lemma active_constrains (f : gmap string pyval) (k : string) (v : pyval) :
  active f k = Some v <-> constrains f k v.
Proof.
  unfold active, constrains. destruct (f !! k) as [w|]; [|split; [discriminate | by intros [? _]]].
  destruct (truthy w) eqn:E.
  - split.
    + intros [= ->]. split; [reflexivity|]. intros He. apply truthy_empty in He. congruence.
    + by intros [[= ->] _].
  - apply truthy_empty in E. split; [discriminate|]. intros [[= ->] Hne]. contradiction.
Qed.

Lemma py_float_bound (float_of_str : string -> option pyfloat) (v : pyval) (y : pyfloat) :
  py_float float_of_str v = Ok y <-> bound_of float_of_str v y.
Proof.
  split.
  - destruct v as [|[|]|z|q|s|l|n|]; simpl; try discriminate.
    + intros [= <-]. constructor.
    + intros [= <-]. constructor.
    + destruct (Z.ltb (Z.abs z) DBL_OVERFLOW) eqn:E; [|discriminate].
      intros [= <-]. constructor. by apply Z.abs_lt, Z.ltb_lt.
    + intros [= <-]. constructor.
    + destruct (float_of_str s) as [x|] eqn:E; [|discriminate].
      intros [= <-]. by constructor.
    + intros [= <-]. constructor.
    + intros [= <-]. constructor.
  - intros [q|n| |z Hz| | |s x Hs]; simpl; try reflexivity.
    + apply Z.abs_lt, Z.ltb_lt in Hz. by rewrite Hz.
    + by rewrite Hs.
Qed.

Lemma py_ge_at_least (x : Q) (y : pyfloat) : py_ge x y = true <-> at_least x y.
Proof.
  split.
  - destruct y as [q|[|]|]; simpl; try discriminate.
    + intros H. constructor. by apply Qle_bool_iff.
    + intros _. constructor.
  - intros [q Hq|]; simpl; [by apply Qle_bool_iff | reflexivity].
Qed.

Lemma prefix_occurs (p s : string) :
  String.prefix p s = true <-> exists after : string, s = (p +:+ after)%string.
Proof.
  revert s. induction p as [|c p IH]; intros s.
  - split; [intros _; by exists s | intros _; by destruct s].
  - destruct s as [|d s].
    + split; [discriminate | intros [after H]; discriminate].
    + change (String.prefix (String c p) (String d s))
        with (if Ascii.ascii_dec c d then String.prefix p s else false).
      destruct (Ascii.ascii_dec c d) as [<- | Hne].
      * rewrite IH. split; intros [after H]; exists after.
        -- cbv [String.append]. fold String.append. by rewrite H.
        -- cbv [String.append] in H. fold String.append in H. by injection H.
      * split; [discriminate|]. intros [after H].
        cbv [String.append] in H. fold String.append in H. injection H as H1 _. congruence.
Qed.

(** [sub in s] holds exactly when [sub] occurs in [s]. *)
Lemma contains_occurs (sub s : string) : contains sub s = true <-> occurs_in sub s.
Proof.
  unfold occurs_in. induction s as [|c s IH].
  - cbn [contains]. rewrite orb_false_r, prefix_occurs. split.
    + intros [after H]. by exists EmptyString, after.
    + intros (before & after & H). destruct before as [|d before]; [by exists after|].
      discriminate.
  - cbn [contains]. rewrite orb_true_iff, IH, prefix_occurs. split.
    + intros [[after H] | (before & after & H)].
      * by exists EmptyString, after.
      * exists (String c before), after. cbv [String.append]. fold String.append.
        by rewrite H.
    + intros (before & after & H). destruct before as [|d before].
      * left. by exists after.
      * right. exists before, after.
        cbv [String.append] in H. fold String.append in H. by injection H.
Qed.

Lemma text_constraint_spec (f : gmap string pyval) (k : string) (test : string -> bool)
  (P : string -> Prop) :
  (forall s, test (lower s) = true <-> P s) ->
  text_constraint f k test = true <-> (forall s, constrains f k (PStr s) -> P s).
Proof.
  intros Htest. unfold text_constraint.
  destruct (active f k) as [v|] eqn:E.
  - destruct v as [| | | |s0| | |];
      try (split; [intros _ s Hs; apply active_constrains in Hs; congruence | reflexivity]).
    rewrite Htest. split.
    + intros H s Hs. apply active_constrains in Hs. congruence.
    + intros H. apply H. by apply active_constrains.
  - split; [intros _ s Hs; apply active_constrains in Hs; congruence | reflexivity].
Qed.

Lemma number_constraint_spec (float_of_str : string -> option pyfloat)
  (f : gmap string pyval) (x : QAItem) :
  number_constraint float_of_str f x = true <->
  (forall v y, constrains f "confianza_minima" v -> bound_of float_of_str v y ->
               at_least (confianza x) y).
Proof.
  unfold number_constraint.
  destruct (active f "confianza_minima") as [v|] eqn:E.
  - destruct (py_float float_of_str v) as [y|e] eqn:Ey.
    + rewrite py_ge_at_least. split.
      * intros H v' y' Hv Hy. apply active_constrains in Hv. apply py_float_bound in Hy.
        congruence.
      * intros H. apply (H v y); [by apply active_constrains | by apply py_float_bound].
    + split; [|reflexivity]. intros _ v' y' Hv Hy.
      apply active_constrains in Hv. apply py_float_bound in Hy. congruence.
  - split; [|reflexivity]. intros _ v y Hv. apply active_constrains in Hv. congruence.
Qed.

(** The test of the code selects the records that meet the constraints. *)
Lemma satisfies_meets (float_of_str : string -> option pyfloat) (f : gmap string pyval)
  (x : QAItem) :
  satisfies float_of_str f x = true <-> meets float_of_str f x.
Proof.
  unfold satisfies. rewrite !andb_true_iff.
  rewrite (text_constraint_spec f "categoria" _ (equal_up_to_case (categoria x)))
    by (intros s; apply String.eqb_eq).
  rewrite (text_constraint_spec f "nivel" _ (equal_up_to_case (nivel x)))
    by (intros s; apply String.eqb_eq).
  rewrite (text_constraint_spec f "tema" _ (fun s => occurs_up_to_case s (tema x)))
    by (intros s; apply contains_occurs).
  rewrite number_constraint_spec.
  split; [intros [[[H1 H2] H3] H4]; by constructor | intros [H1 H2 H3 H4]; auto].
Qed.

Lemma text_ok_spec (f : gmap string pyval) (k : string) :
  text_ok f k = true <-> (forall v, constrains f k v -> exists s, v = PStr s).
Proof.
  unfold text_ok. destruct (active f k) as [v|] eqn:E.
  - apply active_constrains in E.
    destruct v as [| | | |s0| | |];
      try (split; [discriminate | intros H; destruct (H _ E) as [s Hs]; discriminate]).
    split; [|reflexivity]. intros _ v [Hv _]. destruct E as [E _]. exists s0. congruence.
  - split; [|reflexivity]. intros _ v Hv. apply active_constrains in Hv. congruence.
Qed.

(** The mappings the code accepts are the readable ones. *)
Lemma well_typed_readable (float_of_str : string -> option pyfloat) (f : gmap string pyval) :
  well_typed float_of_str f = true <-> readable float_of_str f.
Proof.
  unfold well_typed, readable. rewrite !andb_true_iff, !text_ok_spec.
  assert (Hn : number_ok float_of_str f = true <->
               (forall v, constrains f "confianza_minima" v ->
                          exists y, bound_of float_of_str v y)).
  { unfold number_ok. destruct (active f "confianza_minima") as [v|] eqn:E.
    - apply active_constrains in E.
      destruct (py_float float_of_str v) as [y|e] eqn:Ey.
      + split; [|reflexivity]. intros _ v' [Hv' _]. destruct E as [E _].
        exists y. apply py_float_bound. congruence.
      + split; [discriminate|]. intros H. destruct (H v E) as [y Hy].
        apply py_float_bound in Hy. congruence.
    - split; [|reflexivity]. intros _ v Hv. apply active_constrains in Hv. congruence. }
  rewrite Hn. split.
  - intros [[[H1 H2] H3] H4]. split; [|exact H4].
    intros k v [<- | [<- | [<- | []]]]; auto.
  - intros [H H4]. repeat split; try exact H4; intros v; apply H; simpl; auto.
Qed.

(** C5, as stated, fails.  The output is not given for every filter
    mapping: with a number under [categoria], [filter_items] raises.
    And not every constraint of the specification is applied: with the
    term "quantum" under the keywords keys all three records are
    returned, the first of which does not mention it. *)
Lemma filter_items_raises_or_skips_keywords :
  filter_items float_of_no_str three_records three_unified number_category_filters
  = Raise AttributeError /\
  filter_items float_of_no_str three_records three_unified keyword_filters
  = Ok [0%nat; 1%nat; 2%nat] /\
  constrains keyword_filters "keywords" (PStrList ["quantum"%string]) /\
  constrains keyword_filters "palabras_clave" (PStrList ["quantum"%string]) /\
  ~ mentions ["quantum"%string] (three_records 0%nat).
Proof.
  split; [vm_compute; reflexivity|].
  split; [vm_compute; reflexivity|].
  split; [split; [reflexivity | inversion 1]|].
  split; [split; [reflexivity | inversion 1]|].
  intros (t & [<- | []] & [H | H]); apply contains_occurs in H; vm_compute in H;
    discriminate.
Qed.

(** C5, amended.  On the empty mapping [filter_items] returns the
    collection itself.  On a mapping whose constraints can be read (text
    under [categoria], [nivel] and [tema], a number or a string that
    spells one under [confianza_minima]; a key that is absent or holds
    an empty value, 0 included, is no constraint) it returns the records
    of the collection that meet the constraints under these four keys,
    in their original order; what a keywords key holds constrains
    nothing.  On every other mapping of such values ([None], booleans,
    numbers, strings, lists of strings) it raises and returns nothing. *)
Theorem filter_items_ordered_subsequence (float_of_str : string -> option pyfloat)
  (h : store) (u : QADataUnifier) (f : gmap string pyval) :
  filter_items float_of_str h u ∅ = Ok (unified_items u) /\
  (readable float_of_str f ->
   exists keep : QAItem -> bool,
     (forall x, keep x = true <-> meets float_of_str f x) /\
     filter_items float_of_str h u f
     = Ok (List.filter (fun r => keep (h r)) (unified_items u)) /\
     sublist (List.filter (fun r => keep (h r)) (unified_items u)) (unified_items u)) /\
  (~ readable float_of_str f -> exists e, filter_items float_of_str h u f = Raise e).
Proof.
  split; [|split].
  - unfold filter_items. by rewrite !active_empty.
  - intros Hr. apply well_typed_readable in Hr.
    exists (satisfies float_of_str f). split; [|split].
    + intros x. apply satisfies_meets.
    + by apply filter_items_well_typed.
    + apply filter_sublist.
  - intros Hr. apply filter_items_ill_typed.
    destruct (well_typed float_of_str f) eqn:E; [|reflexivity].
    exfalso. apply Hr. by apply well_typed_readable.
Qed.

Lemma filter_items_ordered_subsequence_witness :
  filter_items float_of_no_str three_records three_unified ∅ = Ok [0%nat; 1%nat; 2%nat] /\
  readable float_of_no_str python_filters /\
  (exists keep : QAItem -> bool,
     (forall x, keep x = true <-> meets float_of_no_str python_filters x) /\
     filter_items float_of_no_str three_records three_unified python_filters
     = Ok (List.filter (fun r => keep (three_records r)) [0%nat; 1%nat; 2%nat])) /\
  filter_items float_of_no_str three_records three_unified python_filters
  = Ok [0%nat; 2%nat].
Proof.
  assert (Hr : readable float_of_no_str python_filters).
  { apply well_typed_readable. vm_compute. reflexivity. }
  destruct (filter_items_ordered_subsequence float_of_no_str three_records three_unified
              python_filters) as (Hid & Hout & _).
  destruct (Hout Hr) as (keep & Hkeep & Hrun & _).
  split; [exact Hid|]. split; [exact Hr|]. split.
  - exists keep. split; [exact Hkeep | exact Hrun].
  - vm_compute. reflexivity.
Defined.

(** C2, as stated, fails: a [palabras_clave] (or [keywords]) entry
    selects nothing.  Neither record mentions "quantum", and both are
    returned. *)
Lemma keywords_filter_selects_nothing :
  filter_items float_of_no_str two_records two_unified keyword_filters
  = Ok [0%nat; 1%nat] /\
  keyword_filters !! "palabras_clave"%string = Some (PStrList ["quantum"%string]) /\
  keyword_filters !! "keywords"%string = Some (PStrList ["quantum"%string]) /\
  contains "quantum" (lower (pregunta (two_records 0%nat))) = false /\
  contains "quantum" (lower (respuesta (two_records 0%nat))) = false /\
  contains "quantum" (lower (pregunta (two_records 1%nat))) = false /\
  contains "quantum" (lower (respuesta (two_records 1%nat))) = false.
Proof. vm_compute. repeat split; reflexivity. Qed.

(** C2, amended.  The filter engine has no keywords filter: an entry
    under any key other than [categoria], [nivel], [tema] and
    [confianza_minima] leaves the outcome of [filter_items] as it is
    without the entry, for every collection and every value. *)
Theorem unrecognized_filter_key_ignored (float_of_str : string -> option pyfloat) (h : store)
  (u : QADataUnifier) (f : gmap string pyval) (k : string) (v : pyval) :
  ~ In k recognized_keys ->
  filter_items float_of_str h u (<[k := v]> f) = filter_items float_of_str h u f.
Proof.
  intros Hk. apply filter_items_depends_on_active.
  intros k' Hk'. apply active_insert_ne. intros ->. contradiction.
Qed.

Lemma unrecognized_filter_key_ignored_witness :
  filter_items float_of_no_str three_records three_unified
    (<["palabras_clave"%string := PStrList ["quantum"%string]]> python_filters)
  = filter_items float_of_no_str three_records three_unified python_filters.
Proof.
  apply (unrecognized_filter_key_ignored float_of_no_str three_records three_unified
           python_filters "palabras_clave" (PStrList ["quantum"%string])).
  simpl. intros [H | [H | [H | [H | []]]]]; discriminate.
Defined.

(** ** The statistics aggregator *)

Lemma fold_left_Qplus (l : list Q) (a : Q) :
  (fold_left Qplus l a == a + fold_right Qplus 0 l)%Q.
Proof.
  revert a. induction l as [|x l IH]; intros a; simpl.
  - ring.
  - rewrite IH. ring.
Qed.

Lemma py_sum_fold_right (l : list Q) : (py_sum l == fold_right Qplus 0 l)%Q.
Proof. unfold py_sum. rewrite fold_left_Qplus. ring. Qed.

Lemma count_nonzero (n : nat) : Qeq_bool (inject_Z (Z.of_nat (S n))) 0 = false.
Proof.
  destruct (Qeq_bool _ _) eqn:E; [|reflexivity].
  apply Qeq_bool_iff in E. unfold Qeq in E. simpl in E. lia.
Qed.

(** The division of [get_statistics] is reached with a non-empty list
    only, so it never raises. *)
Lemma py_div_by_count (a : Q) (n : nat) :
  py_div a (inject_Z (Z.of_nat (S n))) = Ok (a / inject_Z (Z.of_nat (S n)))%Q.
Proof. unfold py_div. by rewrite count_nonzero. Qed.

(** C3, as stated, fails on the empty collection: the mapping returned
    there has the single entry [total] and no mean confidence, so no
    mean of 0 is reported. *)
Lemma empty_statistics_have_no_mean :
  exists stats,
    get_statistics two_records QADataUnifier_init = Ok stats /\
    stats = [("total"%string, SInt 0)] /\
    dict_get "confianza_promedio" stats = None /\
    dict_get "total_items" stats = None.
Proof. eexists. split; [reflexivity|]. repeat split. Qed.

(** C3, amended.  On an empty collection [get_statistics] raises nothing
    and returns the mapping with the single entry [total] = 0 (no mean
    confidence entry); on a non-empty collection it raises nothing and
    reports the number of records and, as mean confidence, the
    arithmetic mean of the records' confidences. *)
Theorem statistics_mean_confidence (h : store) (u : QADataUnifier) :
  match unified_items u with
  | [] => get_statistics h u = Ok [("total"%string, SInt 0)]
  | _ :: _ =>
      exists stats m,
        get_statistics h u = Ok stats /\
        dict_get "total_items" stats = Some (SInt (Z.of_nat (length (unified_items u)))) /\
        dict_get "confianza_promedio" stats = Some (SFloat m) /\
        (m == arithmetic_mean (map (fun item => confianza (h item)) (unified_items u)))%Q
  end.
Proof.
  unfold get_statistics.
  destruct (unified_items u) as [|item its] eqn:E; [reflexivity|].
  set (l := item :: its).
  assert (Hlen : length l = S (length its)) by reflexivity.
  rewrite Hlen, py_div_by_count. cbn [bind].
  eexists; eexists. split; [reflexivity|].
  split; [reflexivity|]. split; [reflexivity|].
  unfold arithmetic_mean. rewrite length_map, Hlen.
  by rewrite py_sum_fold_right.
Qed.

(** ** The export engine *)

Lemma str_le_neq_lt (a b : string) : str_le a b -> a <> b -> str_lt a b.
Proof.
  unfold str_le, str_lt, String.leb, String.ltb.
  destruct (String.compare a b) eqn:E; intros Hle Hne.
  - apply String.compare_eq_iff in E. contradiction.
  - reflexivity.
  - discriminate.
Qed.

Lemma insert_str_Permutation (x : string) (l : list string) : insert_str x l ≡ₚ x :: l.
Proof.
  induction l as [|y l IH]; simpl; [reflexivity|].
  destruct (String.leb x y); [reflexivity|].
  rewrite IH. apply Permutation_swap.
Qed.

Lemma sorted_str_Permutation (l : list string) : sorted_str l ≡ₚ l.
Proof.
  induction l as [|x l IH]; simpl; [reflexivity|].
  by rewrite insert_str_Permutation, IH.
Qed.

Lemma insert_str_HdRel (x y : string) (l : list string) :
  str_le y x -> HdRel str_le y l -> HdRel str_le y (insert_str x l).
Proof.
  intros Hyx Hy. destruct l as [|z l]; simpl; [by constructor|].
  destruct (String.leb x z); constructor; [exact Hyx|].
  by inversion Hy.
Qed.

Lemma insert_str_Sorted (x : string) (l : list string) :
  Sorted str_le l -> Sorted str_le (insert_str x l).
Proof.
  induction 1 as [|y l Hl IH Hy]; simpl.
  - repeat constructor.
  - destruct (String.leb x y) eqn:E.
    + constructor; [by constructor|]. by constructor.
    + constructor; [exact IH|].
      apply insert_str_HdRel; [|exact Hy].
      destruct (String.leb_total x y) as [H | H]; [congruence | exact H].
Qed.

Lemma sorted_str_Sorted (l : list string) : Sorted str_le (sorted_str l).
Proof.
  induction l as [|x l IH]; simpl; [constructor|]. by apply insert_str_Sorted.
Qed.

Lemma Sorted_le_NoDup_lt (l : list string) :
  Sorted str_le l -> NoDup l -> Sorted str_lt l.
Proof.
  induction 1 as [|x l Hl IH Hx]; intros Hnd; [constructor|].
  apply NoDup_cons in Hnd as [Hx_notin Hnd].
  constructor; [by apply IH|].
  destruct Hx as [|y l Hxy]; constructor.
  apply str_le_neq_lt; [exact Hxy|].
  intros ->. apply Hx_notin. by left.
Qed.

(** [sorted(all_columns)]: strictly increasing, and the same elements. *)
Lemma sorted_elements (s : gset string) :
  Sorted str_lt (sorted_str (elements s)) /\
  NoDup (sorted_str (elements s)) /\
  forall c, c ∈ sorted_str (elements s) <-> c ∈ s.
Proof.
  assert (Hnd : NoDup (sorted_str (elements s))).
  { rewrite sorted_str_Permutation. apply NoDup_elements. }
  split; [|split].
  - apply Sorted_le_NoDup_lt; [apply sorted_str_Sorted | exact Hnd].
  - exact Hnd.
  - intros c. rewrite sorted_str_Permutation. apply elem_of_elements.
Qed.

Lemma all_columns_from (data : list row) (s0 : gset string) (c : string) :
  c ∈ fold_left (fun s r => s ∪ list_to_set (keys r)) data s0 <->
  c ∈ s0 \/ exists r, r ∈ data /\ c ∈ keys r.
Proof.
  revert s0. induction data as [|r data IH]; intros s0; simpl.
  - split; [auto|]. intros [H | (r & Hr & _)]; [exact H|]. by apply elem_of_nil in Hr.
  - rewrite IH, elem_of_union, elem_of_list_to_set. split.
    + intros [[H | H] | (r' & Hr' & Hc)]; [by left | |].
      * right. exists r. split; [by left | exact H].
      * right. exists r'. split; [by right | exact Hc].
    + intros [H | (r' & Hr' & Hc)]; [by left; left|].
      apply elem_of_cons in Hr' as [-> | Hr'].
      * left; right. exact Hc.
      * right. exists r'. by split.
Qed.

Lemma all_columns_elem_of (data : list row) (c : string) :
  c ∈ all_columns data <-> exists r, r ∈ data /\ c ∈ keys r.
Proof.
  unfold all_columns. rewrite all_columns_from. split; [|by right].
  intros [H | H]; [|exact H]. by apply not_elem_of_empty in H.
Qed.

(** Every key of every row is a column, so [DictWriter] meets no key
    outside its field names. *)
Lemma row_keys_are_columns (data : list row) (r : row) (c : string) :
  r ∈ data -> c ∈ keys r -> c ∈ sorted_str (elements (all_columns data)).
Proof.
  intros Hr Hc. apply sorted_elements, all_columns_elem_of. by exists r.
Qed.

(** C8.  On a non-empty list, at a path that can be written,
    [export_to_csv] writes one file whose header is the column list: the
    keys of all projected rows, each once, in strictly increasing
    lexicographic order; the rows follow, one per record.  On the empty
    list it writes no file, logs the warning and raises nothing. *)
Theorem export_to_csv_columns (py_str : pyval -> string) (isoformat : datetime -> string)
  (h : store) (w : world) (its : list ref) (file_path : string) (include_metadata : bool) :
  its <> [] ->
  writable w file_path = true ->
  (exists columns w',
      export_to_csv py_str isoformat h w its file_path include_metadata = Ok w' /\
      files w' !! file_path =
        Some (CsvFile columns
                (map (csv_cells columns)
                   (prepare_export_data py_str isoformat h its include_metadata))) /\
      (forall p, p <> file_path -> files w' !! p = files w !! p) /\
      Sorted str_lt columns /\
      NoDup columns /\
      (forall c, c ∈ columns <->
                 exists r, r ∈ prepare_export_data py_str isoformat h its include_metadata /\
                           c ∈ keys r) /\
      length (prepare_export_data py_str isoformat h its include_metadata) = length its) /\
  export_to_csv py_str isoformat h w [] file_path include_metadata
    = Ok (logged Warning_no_data w) /\
  files (logged Warning_no_data w) = files w /\
  log (logged Warning_no_data w) = log w ++ [Warning_no_data].
Proof.
  intros Hne Hw. split; [|repeat split].
  unfold export_to_csv, write_file.
  set (data := prepare_export_data py_str isoformat h its include_metadata).
  assert (Hlen : length data = length its) by apply length_map.
  destruct data as [|r data'] eqn:Edata.
  { destruct its; [contradiction | discriminate]. }
  rewrite <- Edata. rewrite Hw. cbn [bind].
  destruct (sorted_elements (all_columns data)) as (Hsorted & Hnd & Hin).
  eexists; eexists. split; [reflexivity|].
  split; [|split; [|split; [|split; [|split]]]].
  - simpl. apply lookup_insert_eq.
  - intros p Hp. simpl. by apply lookup_insert_ne.
  - exact Hsorted.
  - exact Hnd.
  - intros c. rewrite Hin. apply all_columns_elem_of.
  - by rewrite Edata.
Qed.

Lemma export_to_csv_columns_witness :
  exists w',
    export_to_csv str_of_value fixed_isoformat records_with_metadata empty_world
      [0%nat; 1%nat] "out.csv" true = Ok w' /\
    exists rows,
      files w' !! "out.csv"%string =
        Some (CsvFile ["categoria"; "confianza"; "fecha_creacion"; "fuentes"; "id"; "idioma";
                       "meta_autor"; "nivel"; "palabras_clave"; "pregunta"; "respuesta";
                       "tema"]%string rows).
Proof.
  destruct (export_to_csv_columns str_of_value fixed_isoformat records_with_metadata
              empty_world [0%nat; 1%nat] "out.csv" true)
    as ((columns & w' & Hrun & Hfile & _) & _).
  - discriminate.
  - reflexivity.
  - exists w'. split; [exact Hrun|].
    vm_compute in Hrun. injection Hrun as <-.
    eexists. vm_compute. reflexivity.
Defined.

Section ExportFormats.

Variable py_str : pyval -> string.
Variables isoformat strftime : datetime -> string.
Variable OUTPUT_DIR : string.
Variable path_join : string -> string -> string.
Variable path_parent : string -> string.
Variable path_ancestors : string -> list string.

Let run := export py_str isoformat strftime OUTPUT_DIR path_join path_parent path_ancestors.
Let target := export_target strftime OUTPUT_DIR path_join.

(** The two writers raise nothing but the error of [open]. *)
Lemma export_to_csv_raises (h : store) (w : world) (its : list ref) (p : string)
  (incl : bool) (e : exn) :
  export_to_csv py_str isoformat h w its p incl = Raise e -> e = OSError p.
Proof.
  unfold export_to_csv, write_file.
  destruct (prepare_export_data _ _ _ _ _); [discriminate|].
  destruct (writable w p); simpl; congruence.
Qed.

Lemma export_to_json_raises (h : store) (w : world) (now : datetime) (its : list ref)
  (p : string) (incl : bool) (e : exn) :
  export_to_json py_str isoformat h w now its p incl = Raise e -> e = OSError p.
Proof. unfold export_to_json, write_file. destruct (writable w p); simpl; congruence. Qed.

(** [export] raises [ValueError] only through its last branch: never
    for "csv" or "json". *)
Lemma export_ValueError (self : QAExporter) (h : store) (w : world) (now : datetime)
  (its : list ref) (config : ExportConfig) (msg : string) :
  run self h w now its config = Raise (ValueError msg) ->
  formato config <> "csv"%string /\ formato config <> "json"%string /\
  msg = ("Formato no soportado: " +:+ formato config)%string.
Proof.
  unfold run, export, mkdir_parents.
  destruct (creatable w _); [|discriminate]. cbn [bind].
  destruct (String.eqb (formato config) "csv") eqn:Ecsv.
  { destruct (export_to_csv _ _ _ _ _ _ _) eqn:E; [discriminate|].
    apply export_to_csv_raises in E. subst. discriminate. }
  destruct (String.eqb (formato config) "json") eqn:Ejson.
  { destruct (export_to_json _ _ _ _ _ _ _ _) eqn:E; [discriminate|].
    apply export_to_json_raises in E. subst. discriminate. }
  cbn [bind]. intros [= <-].
  apply String.eqb_neq in Ecsv, Ejson. auto.
Qed.

(** C9, on the code: "xlsx" and "yaml" are in the exporter's own list
    of supported formats, and [export] rejects both as unsupported
    (once the target directory is there), whatever the records and the
    other settings. *)
Theorem export_rejects_listed_formats (h : store) (w : world) (now : datetime)
  (its : list ref) (incl : bool) (f : gmap string pyval) (rs na : option string) :
  let config fmt := mkExportConfig fmt incl f rs na in
  let dir fmt := path_parent (target now (config fmt)) in
  In "xlsx"%string (supported_formats QAExporter_init) /\
  In "yaml"%string (supported_formats QAExporter_init) /\
  run QAExporter_init h w now its (config "xlsx"%string) =
    (if creatable w (dir "xlsx"%string)
     then Raise (ValueError "Formato no soportado: xlsx")
     else Raise (OSError (dir "xlsx"%string))) /\
  run QAExporter_init h w now its (config "yaml"%string) =
    (if creatable w (dir "yaml"%string)
     then Raise (ValueError "Formato no soportado: yaml")
     else Raise (OSError (dir "yaml"%string))).
Proof.
  cbv zeta. unfold run, target, export, mkdir_parents.
  split; [simpl; tauto|]. split; [simpl; tauto|].
  split; cbn [formato]; destruct (creatable w _); reflexivity.
Qed.

End ExportFormats.

(** ** The unification manager *)

Lemma add_data_batch (uuid : string) (now : datetime) (m : QADataManager) (b : QABatch) :
  add_data uuid now m (ObjBatch b) = Ok (with_unifier m (add_batch (unifier m) b)).
Proof. reflexivity. Qed.

Lemma add_data_not_a_list (uuid : string) (now : datetime) (m : QADataManager) (v : pyval) :
  as_list (ObjOther v) = None ->
  add_data uuid now m (ObjOther v) = Raise (ValueError "Tipo de datos no soportado").
Proof. intros H. unfold add_data. by rewrite H. Qed.

Lemma add_data_items (uuid : string) (now : datetime) (m : QADataManager) (l : list pyobj) :
  forallb is_QABatch l = false ->
  forallb is_QAItem l = true ->
  exists b,
    add_data uuid now m (ObjList l) = Ok (with_unifier m (add_batch (unifier m) b)) /\
    items b = the_items l /\ origen b = "manual"%string.
Proof.
  intros Hb Hi. unfold add_data. simpl. rewrite Hb, Hi.
  eexists. split; [reflexivity|]. split; reflexivity.
Qed.

(** C4, on the code: a list that mixes batches and records (neither all
    batches nor all records) is not rejected: [add_data] raises nothing
    and returns with the manager as it was, the input dropped. *)
Theorem add_data_mixed_list_dropped (uuid : string) (now : datetime) (m : QADataManager)
  (l : list pyobj) :
  forallb is_QABatch l = false ->
  forallb is_QAItem l = false ->
  add_data uuid now m (ObjList l) = Ok m.
Proof. intros Hb Hi. unfold add_data. simpl. by rewrite Hb, Hi. Qed.

Lemma add_data_mixed_list_dropped_witness :
  add_data "uuid-1" 0 QADataManager_init (ObjList [ObjBatch one_batch; ObjItem 1%nat])
  = Ok QADataManager_init.
Proof.
  apply (add_data_mixed_list_dropped "uuid-1" 0 QADataManager_init
           [ObjBatch one_batch; ObjItem 1%nat]); reflexivity.
Defined.

(** ** More on the similarity merger *)

Section MergerInvariants.

Variable ratio : string -> string -> Q.
Variable thr : Q.

Lemma scan_merged_Some (h h' : store) (it : ref) (merged : list ref) :
  scan_merged ratio thr h it merged = Some h' ->
  exists e, e ∈ merged /\ h' = merge_into h e it.
Proof.
  induction merged as [|x merged IH]; simpl; [discriminate|].
  destruct (is_similar ratio thr (h it) (h x)).
  - intros [= <-]. exists x. split; [by left | reflexivity].
  - intros H. destruct (IH H) as (e & He & ->). exists e. split; [by right | reflexivity].
Qed.

(** What one turn of the outer loop does, read as two cases. *)
Lemma process_item_cases (h : store) (merged : list ref) (c : nat) (it : ref) :
  (process_item ratio thr (h, merged, c) it = (h, merged ++ [it], c) /\
   scan_merged ratio thr h it merged = None) \/
  (exists e, e ∈ merged /\
             process_item ratio thr (h, merged, c) it = (merge_into h e it, merged, S c)).
Proof.
  unfold process_item. destruct (scan_merged ratio thr h it merged) as [h'|] eqn:E.
  - right. apply scan_merged_Some in E as (e & He & ->). by exists e.
  - left. by split.
Qed.

(** The output list extends the list the loop starts from by records of
    the input, in their order. *)
Lemma merge_loop_sublist (its : list ref) (h : store) (merged : list ref) (c : nat) :
  exists kept,
    snd (fst (fold_left (process_item ratio thr) its (h, merged, c))) = merged ++ kept /\
    sublist kept its.
Proof.
  revert h merged c. induction its as [|it its IH]; intros h merged c; cbn [fold_left].
  - exists []. split; [by rewrite app_nil_r | constructor].
  - destruct (process_item_cases h merged c it) as [[-> _] | (e & _ & ->)].
    + destruct (IH h (merged ++ [it]) c) as (kept & -> & Hsub).
      exists (it :: kept). split; [by rewrite <- app_assoc | by constructor].
    + destruct (IH (merge_into h e it) merged (S c)) as (kept & -> & Hsub).
      exists kept. split; [reflexivity | by constructor].
Qed.

(** A relation between the values of a record that every merge step
    respects holds between the stores before and after the loop. *)
Lemma merge_loop_related (R : QAItem -> QAItem -> Prop) :
  (forall x, R x x) ->
  (forall x y z, R x y -> R y z -> R x z) ->
  (forall x y, R x (merged_record x y)) ->
  forall (its : list ref) (h : store) (merged : list ref) (c : nat) (r : ref),
    R (h r) (fst (fst (fold_left (process_item ratio thr) its (h, merged, c))) r).
Proof.
  intros Hrefl Htrans Hstep its.
  induction its as [|it its IH]; intros h merged c r; cbn [fold_left].
  - apply Hrefl.
  - destruct (process_item_cases h merged c it) as [[-> _] | (e & _ & ->)]; [apply IH|].
    eapply Htrans; [|apply IH].
    destruct (Nat.eq_dec r e) as [-> | Hne].
    + rewrite merge_into_existing. apply Hstep.
    + rewrite merge_into_other by exact Hne. apply Hrefl.
Qed.

(** A property of record values that the merge rule keeps, and that holds
    of all records of a list the loop works within, still holds of them
    after the loop. *)
Lemma merge_loop_invariant (P : QAItem -> Prop) (L : list ref) :
  (forall x y, P x -> P y -> P (merged_record x y)) ->
  forall (its : list ref) (h : store) (merged : list ref) (c : nat),
    its ⊆ L -> merged ⊆ L ->
    (forall r, r ∈ L -> P (h r)) ->
    forall r, r ∈ L ->
      P (fst (fst (fold_left (process_item ratio thr) its (h, merged, c))) r).
Proof.
  intros Hstep its.
  induction its as [|it its IH]; intros h merged c Hits Hmerged HP r Hr; cbn [fold_left].
  - by apply HP.
  - assert (Hit : it ∈ L) by (apply Hits; by left).
    assert (Hits' : its ⊆ L) by (intros x Hx; apply Hits; by right).
    destruct (process_item_cases h merged c it) as [[-> _] | (e & He & ->)].
    + apply IH; try assumption.
      intros x Hx. apply elem_of_app in Hx as [Hx | Hx]; [by apply Hmerged|].
      apply list_elem_of_singleton in Hx as ->. exact Hit.
    + apply IH; try assumption.
      intros x Hx. destruct (Nat.eq_dec x e) as [-> | Hne].
      * rewrite merge_into_existing. apply Hstep; apply HP; [by apply Hmerged | exact Hit].
      * rewrite merge_into_other by exact Hne. by apply HP.
Qed.

(** A record outside the output list has the value it had. *)
Lemma merge_loop_untouched (its : list ref) (h : store) (merged : list ref) (c : nat)
  (r : ref) :
  r ∉ snd (fst (fold_left (process_item ratio thr) its (h, merged, c))) ->
  fst (fst (fold_left (process_item ratio thr) its (h, merged, c))) r = h r.
Proof.
  revert h merged c. induction its as [|it its IH]; intros h merged c; cbn [fold_left].
  - reflexivity.
  - destruct (process_item_cases h merged c it) as [[-> _] | (e & He & ->)].
    + intros Hr. by apply IH.
    + intros Hr. rewrite IH by exact Hr.
      apply merge_into_other. intros ->. apply Hr.
      destruct (merge_loop_sublist its (merge_into h e it) merged (S c)) as (kept & -> & _).
      apply elem_of_app. by left.
Qed.

End MergerInvariants.

Lemma merge_similar_items_unfold (ratio : string -> string -> Q) (thr : Q) (h : store)
  (u : QADataUnifier) :
  let loop := fold_left (process_item ratio thr) (unified_items u) (h, [], O) in
  merge_similar_items ratio thr h u =
  (fst (fst loop), {| batches := batches u; unified_items := snd (fst loop) |}, snd loop).
Proof.
  unfold merge_similar_items. by destruct (fold_left _ _ _) as [[h' merged] c].
Qed.

Lemma same_identity_merged (x y : QAItem) : same_identity x (merged_record x y).
Proof. repeat split. Qed.

Lemma same_identity_trans (x y z : QAItem) :
  same_identity x y -> same_identity y z -> same_identity x z.
Proof.
  unfold same_identity. intros (?&?&?&?&?&?&?&?) (?&?&?&?&?&?&?&?).
  repeat split; congruence.
Qed.

Lemma provenance_kept_merged (x y : QAItem) : provenance_kept x (merged_record x y).
Proof.
  split; intros s Hs; simpl; apply list_set_elem_of, elem_of_app; by left.
Qed.

Lemma provenance_kept_trans (x y z : QAItem) :
  provenance_kept x y -> provenance_kept y z -> provenance_kept x z.
Proof. intros [H1 H2] [H3 H4]. split; auto. Qed.

Lemma confidence_in_range_merged (x y : QAItem) :
  confidence_in_range x -> confidence_in_range y -> confidence_in_range (merged_record x y).
Proof.
  unfold confidence_in_range. simpl. intros [Hx0 Hx1] [Hy0 Hy1].
  split.
  - apply Qle_shift_div_l; [reflexivity | lra].
  - apply Qle_shift_div_r; [reflexivity | lra].
Qed.

(** X1.  The merged collection is a subsequence of the collection it
    started from, with the same first record; a record that is not in it
    has not been modified. *)
Theorem merge_keeps_a_subsequence (ratio : string -> string -> Q) (thr : Q) (h : store)
  (u : QADataUnifier) :
  let out := merge_similar_items ratio thr h u in
  sublist (unified_items (snd (fst out))) (unified_items u) /\
  head (unified_items (snd (fst out))) = head (unified_items u) /\
  forall r, r ∉ unified_items (snd (fst out)) -> fst (fst out) r = h r.
Proof.
  cbv zeta. rewrite merge_similar_items_unfold. cbn [fst snd unified_items].
  split; [|split].
  - destruct (merge_loop_sublist ratio thr (unified_items u) h [] O) as (kept & -> & Hsub).
    exact Hsub.
  - destruct (unified_items u) as [|x l]; [reflexivity|]. cbn [fold_left].
    change (process_item ratio thr (h, [], O) x) with (h, [x], O).
    by destruct (merge_loop_sublist ratio thr l h [x] O) as (kept & -> & _).
  - intros r Hr. by apply merge_loop_untouched.
Qed.

(** X2.  A merge changes no record's id, question, category, level,
    topic, language, metadata or creation time, and removes no source
    and no keyword from any record. *)
Theorem merge_keeps_identity_and_provenance (ratio : string -> string -> Q) (thr : Q)
  (h : store) (u : QADataUnifier) (r : ref) :
  let h' := fst (fst (merge_similar_items ratio thr h u)) in
  same_identity (h r) (h' r) /\ provenance_kept (h r) (h' r).
Proof.
  cbv zeta. rewrite merge_similar_items_unfold. cbn [fst]. split.
  - apply (merge_loop_related ratio thr same_identity).
    + intros x. repeat split.
    + apply same_identity_trans.
    + apply same_identity_merged.
  - apply (merge_loop_related ratio thr provenance_kept).
    + intros x. split; auto.
    + apply provenance_kept_trans.
    + apply provenance_kept_merged.
Qed.

(** X3.  If the confidence of every record of the collection is within
    [0, 1] before a merge, it is so after it, for the records that
    survive and for those that do not. *)
Theorem merge_keeps_confidence_in_range (ratio : string -> string -> Q) (thr : Q)
  (h : store) (u : QADataUnifier) :
  Forall (fun r => confidence_in_range (h r)) (unified_items u) ->
  let h' := fst (fst (merge_similar_items ratio thr h u)) in
  Forall (fun r => confidence_in_range (h' r)) (unified_items u).
Proof.
  intros Hin. cbv zeta. rewrite merge_similar_items_unfold. cbn [fst].
  rewrite Forall_forall in Hin |- *. intros r Hr.
  apply (merge_loop_invariant ratio thr confidence_in_range (unified_items u));
    try done.
  - apply confidence_in_range_merged.
  - intros x Hx. by apply elem_of_nil in Hx.
Qed.

Lemma merge_keeps_confidence_in_range_witness :
  Forall (fun r => confidence_in_range
                     (fst (fst (merge_similar_items SequenceMatcher.ratio (8 # 10)
                                  two_records two_unified)) r))
    [0%nat; 1%nat].
Proof.
  apply (merge_keeps_confidence_in_range SequenceMatcher.ratio (8 # 10)
           two_records two_unified).
  repeat constructor; unfold Qle; simpl; lia.
Defined.

(** X4.  A merge invents nothing: after it, the answer of every record
    of the collection is an answer some record of the collection had
    before, and each of its sources and keywords was a source or keyword
    of some record of the collection before. *)
Theorem merge_invents_nothing (ratio : string -> string -> Q) (thr : Q) (h : store)
  (u : QADataUnifier) :
  let h' := fst (fst (merge_similar_items ratio thr h u)) in
  Forall
    (fun r =>
       respuesta (h' r) ∈ map (fun x => respuesta (h x)) (unified_items u) /\
       (forall s, s ∈ fuentes (h' r) ->
                  exists x, x ∈ unified_items u /\ s ∈ fuentes (h x)) /\
       (forall s, s ∈ palabras_clave (h' r) ->
                  exists x, x ∈ unified_items u /\ s ∈ palabras_clave (h x)))
    (unified_items u).
Proof.
  cbv zeta. rewrite merge_similar_items_unfold. cbn [fst].
  rewrite Forall_forall. intros r Hr.
  apply (merge_loop_invariant ratio thr
           (fun v =>
              respuesta v ∈ map (fun x => respuesta (h x)) (unified_items u) /\
              (forall s, s ∈ fuentes v ->
                         exists x, x ∈ unified_items u /\ s ∈ fuentes (h x)) /\
              (forall s, s ∈ palabras_clave v ->
                         exists x, x ∈ unified_items u /\ s ∈ palabras_clave (h x)))
           (unified_items u)); try done.
  - intros x y (Hxa & Hxs & Hxk) (Hya & Hys & Hyk). simpl. split; [|split].
    + by destruct (Qltb _ _).
    + intros s Hs. apply list_set_elem_of, elem_of_app in Hs as [Hs | Hs]; auto.
    + intros s Hs. apply list_set_elem_of, elem_of_app in Hs as [Hs | Hs]; auto.
  - intros x Hx. by apply elem_of_nil in Hx.
  - intros x Hx. split; [|split].
    + apply list_elem_of_fmap. by exists x.
    + intros s Hs. by exists x.
    + intros s Hs. by exists x.
Qed.

Section Stable.

Variable ratio : string -> string -> Q.
Variable thr : Q.

Lemma scan_merged_dissimilar (h : store) (it : ref) (seen : list ref) :
  forallb (fun y => negb (is_similar ratio thr (h it) (h y))) seen = true ->
  scan_merged ratio thr h it seen = None.
Proof.
  intros H. apply scan_merged_no_match. apply Forall_forall. intros y Hy.
  rewrite forallb_forall in H. apply negb_true_iff, H. by apply list_elem_of_In.
Qed.

Lemma merge_loop_dissimilar (h : store) (l seen : list ref) (c : nat) :
  dissimilar_from ratio thr h seen l = true ->
  fold_left (process_item ratio thr) l (h, seen, c) = (h, seen ++ l, c).
Proof.
  revert seen. induction l as [|x l IH]; intros seen; simpl.
  - intros _. by rewrite app_nil_r.
  - intros H. apply andb_true_iff in H as [Hx Hl].
    rewrite (scan_merged_dissimilar h x seen Hx), (IH _ Hl).
    by rewrite <- app_assoc.
Qed.

End Stable.

(** X5.  When no record of the collection is similar (above the
    threshold, by question or by answer) to a record before it, the merge
    returns 0 and changes nothing: same records, same order, same store. *)
Theorem merge_without_duplicates_is_identity (ratio : string -> string -> Q) (thr : Q)
  (h : store) (u : QADataUnifier) :
  dissimilar_from ratio thr h [] (unified_items u) = true ->
  merge_similar_items ratio thr h u = (h, u, O).
Proof.
  intros H. rewrite merge_similar_items_unfold.
  rewrite (merge_loop_dissimilar ratio thr h (unified_items u) [] O H).
  simpl. by destruct u.
Qed.

Lemma merge_without_duplicates_is_identity_witness :
  merge_similar_items SequenceMatcher.ratio (8 # 10) unlike_records two_unified
  = (unlike_records, two_unified, O).
Proof.
  apply (merge_without_duplicates_is_identity SequenceMatcher.ratio (8 # 10)
           unlike_records two_unified).
  vm_compute. reflexivity.
Defined.

(** ** More on the filter engine *)

Lemma active_insert_falsy (f : gmap string pyval) (k k' : string) (v : pyval) :
  truthy v = false -> active (<[k := v]> f) k' = active (delete k f) k'.
Proof.
  intros Hv. unfold active. destruct (decide (k = k')) as [<- | Hne].
  - by rewrite lookup_insert_eq, lookup_delete_eq, Hv.
  - by rewrite lookup_insert_ne, lookup_delete_ne.
Qed.

(** X6.  A filter value that is falsy (0, 0.0, the empty string, the
    empty list, [False], [None]) imposes no constraint: the outcome is
    the one without the key. *)
Theorem falsy_filter_value_is_no_constraint (float_of_str : string -> option pyfloat)
  (h : store) (u : QADataUnifier) (f : gmap string pyval) (k : string) (v : pyval) :
  truthy v = false ->
  filter_items float_of_str h u (<[k := v]> f) = filter_items float_of_str h u (delete k f).
Proof.
  intros Hv. apply filter_items_depends_on_active.
  intros k' _. by apply active_insert_falsy.
Qed.

Lemma falsy_filter_value_is_no_constraint_witness :
  filter_items float_of_no_str three_records three_unified
    (<["confianza_minima"%string := PFloat 0]> python_filters)
  = filter_items float_of_no_str three_records three_unified
      (delete "confianza_minima"%string python_filters).
Proof.
  apply (falsy_filter_value_is_no_constraint float_of_no_str three_records three_unified
           python_filters "confianza_minima" (PFloat 0)).
  reflexivity.
Defined.

Lemma active_subseteq (f g : gmap string pyval) (k : string) (v : pyval) :
  f ⊆ g -> active f k = Some v -> active g k = Some v.
Proof.
  intros Hfg. unfold active. destruct (f !! k) as [x|] eqn:E; [|discriminate].
  by rewrite (lookup_weaken f g k x E Hfg).
Qed.

Lemma text_ok_subseteq (f g : gmap string pyval) (k : string) :
  f ⊆ g -> text_ok g k = true -> text_ok f k = true.
Proof.
  intros Hfg. unfold text_ok. destruct (active f k) as [v|] eqn:E; [|done].
  by rewrite (active_subseteq f g k v Hfg E).
Qed.

Lemma well_typed_subseteq (float_of_str : string -> option pyfloat) (f g : gmap string pyval) :
  f ⊆ g -> well_typed float_of_str g = true -> well_typed float_of_str f = true.
Proof.
  intros Hfg. unfold well_typed. rewrite !andb_true_iff.
  intros [[[H1 H2] H3] H4]. repeat split; try by eapply text_ok_subseteq.
  unfold number_ok in *. destruct (active f "confianza_minima") as [v|] eqn:E; [|done].
  by rewrite (active_subseteq f g _ v Hfg E) in H4.
Qed.

Lemma text_constraint_subseteq (f g : gmap string pyval) (k : string)
  (test : string -> bool) :
  f ⊆ g -> text_constraint g k test = true -> text_constraint f k test = true.
Proof.
  intros Hfg. unfold text_constraint. destruct (active f k) as [v|] eqn:E; [|done].
  by rewrite (active_subseteq f g k v Hfg E).
Qed.

Lemma satisfies_subseteq (float_of_str : string -> option pyfloat) (f g : gmap string pyval)
  (x : QAItem) :
  f ⊆ g -> satisfies float_of_str g x = true -> satisfies float_of_str f x = true.
Proof.
  intros Hfg. unfold satisfies. rewrite !andb_true_iff.
  intros [[[H1 H2] H3] H4]. repeat split; try by eapply text_constraint_subseteq.
  unfold number_constraint in *.
  destruct (active f "confianza_minima") as [v|] eqn:E; [|done].
  by rewrite (active_subseteq f g _ v Hfg E) in H4.
Qed.

Lemma filter_sublist_impl {A} (p q : A -> bool) (l : list A) :
  (forall x, q x = true -> p x = true) ->
  sublist (List.filter q l) (List.filter p l).
Proof.
  intros Himpl. induction l as [|a l IH]; simpl; [constructor|].
  destruct (q a) eqn:Eq.
  - rewrite (Himpl a Eq). by constructor.
  - destruct (p a); [by constructor | exact IH].
Qed.

(** X7.  Adding entries to a filter mapping never adds records: when the
    larger mapping is one [filter_items] accepts, so is the smaller, and
    the output for the larger is a subsequence of the output for the
    smaller. *)
Theorem more_constraints_fewer_records (float_of_str : string -> option pyfloat) (h : store)
  (u : QADataUnifier) (f g : gmap string pyval) :
  f ⊆ g ->
  well_typed float_of_str g = true ->
  exists out_f out_g,
    filter_items float_of_str h u f = Ok out_f /\
    filter_items float_of_str h u g = Ok out_g /\
    sublist out_g out_f.
Proof.
  intros Hfg Hg.
  pose proof (well_typed_subseteq float_of_str f g Hfg Hg) as Hf.
  eexists; eexists.
  split; [by apply filter_items_well_typed|].
  split; [by apply filter_items_well_typed|].
  apply filter_sublist_impl. intros x. by apply satisfies_subseteq.
Qed.

Lemma more_constraints_fewer_records_witness :
  exists out_f out_g,
    filter_items float_of_no_str three_records three_unified
      (delete "tema"%string python_filters) = Ok out_f /\
    filter_items float_of_no_str three_records three_unified python_filters = Ok out_g /\
    sublist out_g out_f.
Proof.
  apply (more_constraints_fewer_records float_of_no_str three_records three_unified
           (delete "tema"%string python_filters) python_filters).
  - apply delete_subseteq.
  - vm_compute. reflexivity.
Defined.

(** ** More on the statistics aggregator *)

Lemma dict_get_count_add_eq (k : string) (n : nat) (d : list (string * nat)) :
  dict_get k (count_add k n d) = Some (default O (dict_get k d) + n)%nat.
Proof.
  induction d as [|[k' m] d IH]; simpl.
  - by rewrite String.eqb_refl.
  - destruct (String.eqb k' k) eqn:E; simpl; rewrite E; [reflexivity | exact IH].
Qed.

Lemma dict_get_count_add_ne (k k' : string) (n : nat) (d : list (string * nat)) :
  k' <> k -> dict_get k' (count_add k n d) = dict_get k' d.
Proof.
  intros Hne. induction d as [|[k0 m] d IH]; simpl.
  - apply String.eqb_neq in Hne. by rewrite String.eqb_sym, Hne.
  - destruct (String.eqb k0 k) eqn:E; simpl.
    + apply String.eqb_eq in E as ->.
      assert (String.eqb k k' = false) as -> by (apply String.eqb_neq; congruence).
      reflexivity.
    + by rewrite IH.
Qed.

Lemma dict_get_None {A} (k : string) (d : list (string * A)) :
  dict_get k d = None <-> k ∉ keys d.
Proof.
  induction d as [|[k' v] d IH]; simpl.
  - split; [intros _; apply not_elem_of_nil | done].
  - rewrite not_elem_of_cons. destruct (String.eqb k' k) eqn:E.
    + apply String.eqb_eq in E. split; [discriminate | intros [H _]; congruence].
    + apply String.eqb_neq in E. rewrite IH. split; [intros H; split; congruence | tauto].
Qed.

Lemma dict_get_elem_of {A} (k : string) (v : A) (d : list (string * A)) :
  NoDup (keys d) -> (k, v) ∈ d -> dict_get k d = Some v.
Proof.
  induction d as [|[k' v'] d IH]; simpl; intros Hnd Hin.
  - by apply elem_of_nil in Hin.
  - apply NoDup_cons in Hnd as [Hk' Hnd].
    apply elem_of_cons in Hin as [[= <- <-] | Hin].
    + by rewrite String.eqb_refl.
    + destruct (String.eqb k' k) eqn:E; [|by apply IH].
      apply String.eqb_eq in E as ->. exfalso. apply Hk'.
      apply list_elem_of_fmap. by exists (k, v).
Qed.

Lemma dict_get_Some_elem_of {A} (k : string) (v : A) (d : list (string * A)) :
  dict_get k d = Some v -> (k, v) ∈ d.
Proof.
  induction d as [|[k' v'] d IH]; simpl; [discriminate|].
  destruct (String.eqb k' k) eqn:E.
  - apply String.eqb_eq in E as ->. intros [= ->]. by left.
  - intros H. right. by apply IH.
Qed.

Lemma keys_count_add (k : string) (n : nat) (d : list (string * nat)) :
  keys (count_add k n d) = if decide (k ∈ keys d) then keys d else keys d ++ [k].
Proof.
  unfold keys. induction d as [|[k' m] d IH]; simpl; [reflexivity|].
  destruct (String.eqb k' k) eqn:E; simpl.
  - apply String.eqb_eq in E as ->. rewrite decide_True by (by left). reflexivity.
  - apply String.eqb_neq in E. rewrite IH.
    destruct (decide (k ∈ map fst d)) as [Hin | Hnin].
    + rewrite decide_True by (by right). reflexivity.
    + rewrite decide_False; [reflexivity|].
      intros H. apply elem_of_cons in H as [-> | H]; done.
Qed.

Lemma NoDup_keys_count_add (k : string) (n : nat) (d : list (string * nat)) :
  NoDup (keys d) -> NoDup (keys (count_add k n d)).
Proof.
  intros Hnd. rewrite keys_count_add. destruct (decide _) as [Hin | Hnin]; [exact Hnd|].
  apply NoDup_app. split; [exact Hnd|]. split.
  - intros x Hx Hx'. apply list_elem_of_singleton in Hx' as ->. done.
  - apply NoDup_singleton.
Qed.

Lemma sum_count_add (k : string) (n : nat) (d : list (string * nat)) :
  sum_list (map snd (count_add k n d)) = (sum_list (map snd d) + n)%nat.
Proof.
  induction d as [|[k' m] d IH]; simpl; [lia|].
  destruct (String.eqb k' k); simpl; lia.
Qed.

(** The counting loops, over any elements: those that pass [guard] add
    their [weight] under their [key]. *)
Section Counting.

Context {A : Type}.
Variable key : A -> string.
Variable weight : A -> nat.
Variable guard : A -> bool.

Lemma count_loop_get (l : list A) (d0 : list (string * nat)) (k : string) :
  dict_get k (fold_left (count_step key weight guard) l d0) =
  match dict_get k d0 with
  | Some m => Some (m + sum_list (map weight (List.filter (selected key guard k) l)))%nat
  | None =>
      if existsb (selected key guard k) l
      then Some (sum_list (map weight (List.filter (selected key guard k) l)))
      else None
  end.
Proof.
  revert d0. induction l as [|a l IH]; intros d0; simpl.
  - destruct (dict_get k d0); [f_equal; lia | reflexivity].
  - rewrite IH. unfold count_step.
    assert (Hsel : selected key guard k a = guard a && String.eqb (key a) k) by reflexivity.
    rewrite !Hsel. clear Hsel.
    destruct (guard a); simpl; [|reflexivity].
    destruct (String.eqb (key a) k) eqn:E; simpl.
    + apply String.eqb_eq in E. subst k. rewrite dict_get_count_add_eq.
      destruct (dict_get (key a) d0); simpl; f_equal; lia.
    + apply String.eqb_neq in E.
      rewrite dict_get_count_add_ne by congruence. reflexivity.
Qed.

Lemma count_loop_NoDup (l : list A) (d0 : list (string * nat)) :
  NoDup (keys d0) -> NoDup (keys (fold_left (count_step key weight guard) l d0)).
Proof.
  revert d0. induction l as [|a l IH]; intros d0 Hnd; simpl; [exact Hnd|].
  apply IH. unfold count_step. destruct (guard a); [|exact Hnd].
  by apply NoDup_keys_count_add.
Qed.

Lemma count_loop_sum (l : list A) (d0 : list (string * nat)) :
  sum_list (map snd (fold_left (count_step key weight guard) l d0)) =
  (sum_list (map snd d0) + sum_list (map weight (List.filter guard l)))%nat.
Proof.
  revert d0. induction l as [|a l IH]; intros d0; simpl; [lia|].
  rewrite IH. unfold count_step. destruct (guard a); simpl; [|reflexivity].
  rewrite sum_count_add. lia.
Qed.

End Counting.

Lemma sum_list_ones {A} (l : list A) : sum_list (map (fun _ => 1%nat) l) = length l.
Proof. induction l as [|a l IH]; simpl; [reflexivity | by rewrite IH]. Qed.

Lemma existsb_filter_length {A} (p : A -> bool) (l : list A) :
  existsb p l = negb (Nat.eqb (length (List.filter p l)) 0).
Proof.
  induction l as [|a l IH]; simpl; [reflexivity|].
  destruct (p a); simpl; [reflexivity | exact IH].
Qed.

(** The loop of lines 138-150 for one tag builds its frequency table. *)
Lemma tag_loop_is_frequency_table (key : QAItem -> string) (h : store) (l : list ref) :
  is_frequency_table key h l
    (fold_left (fun d item => count_add (key (h item)) 1 d) l []).
Proof.
  change (fold_left (fun d item => count_add (key (h item)) 1 d) l [])
    with (fold_left (count_step (fun r => key (h r)) (fun _ => 1%nat) (fun _ => true)) l []).
  split; [|split].
  - apply count_loop_NoDup. constructor.
  - intros k. rewrite count_loop_get. simpl.
    unfold occurrences, frequency, selected. simpl.
    rewrite existsb_filter_length, sum_list_ones.
    by destruct (Nat.eqb _ 0).
  - rewrite count_loop_sum. simpl. rewrite filter_true. apply sum_list_ones.
Qed.

(** X8.  On a non-empty collection the category, level and language
    tables of [get_statistics] are frequency tables: one entry for each
    value that occurs among the records, holding the number of records
    with that value, and the counts of each table add up to the number
    of records. *)
Theorem statistics_frequency_tables (h : store) (u : QADataUnifier) :
  unified_items u <> [] ->
  exists stats cats nivs idis,
    get_statistics h u = Ok stats /\
    dict_get "distribucion_categorias" stats = Some (SDist cats) /\
    dict_get "distribucion_niveles" stats = Some (SDist nivs) /\
    dict_get "distribucion_idiomas" stats = Some (SDist idis) /\
    is_frequency_table categoria h (unified_items u) cats /\
    is_frequency_table nivel h (unified_items u) nivs /\
    is_frequency_table idioma h (unified_items u) idis.
Proof.
  intros Hne. unfold get_statistics.
  destruct (unified_items u) as [|item its] eqn:E; [contradiction|].
  set (l := item :: its).
  assert (Hlen : length l = S (length its)) by reflexivity.
  rewrite Hlen, py_div_by_count. cbn [bind].
  do 4 eexists. split; [reflexivity|].
  split; [reflexivity|]. split; [reflexivity|]. split; [reflexivity|].
  split; [|split]; apply tag_loop_is_frequency_table.
Qed.

Lemma statistics_frequency_tables_witness :
  exists stats,
    get_statistics three_records three_unified = Ok stats /\
    dict_get "distribucion_niveles" stats
    = Some (SDist [("intermedio"%string, 2%nat); ("avanzado"%string, 1%nat)]).
Proof.
  destruct (statistics_frequency_tables three_records three_unified)
    as (stats & cats & nivs & idis & Hrun & _).
  - discriminate.
  - exists stats. split; [exact Hrun|].
    vm_compute in Hrun. injection Hrun as <-. reflexivity.
Defined.

Lemma insert_desc_Permutation (x : string * nat) (l : list (string * nat)) :
  insert_desc x l ≡ₚ x :: l.
Proof.
  induction l as [|y l IH]; simpl; [reflexivity|].
  destruct (Nat.ltb (snd x) (snd y)); [|reflexivity].
  rewrite IH. apply Permutation_swap.
Qed.

Lemma sorted_desc_Permutation (d : list (string * nat)) : sorted_desc d ≡ₚ d.
Proof.
  induction d as [|x d IH]; simpl; [reflexivity|].
  by rewrite insert_desc_Permutation, IH.
Qed.

Lemma insert_desc_StronglySorted (x : string * nat) (l : list (string * nat)) :
  StronglySorted count_ge l -> StronglySorted count_ge (insert_desc x l).
Proof.
  induction 1 as [|y l Hl IH Hy]; simpl.
  - repeat constructor.
  - destruct (Nat.ltb (snd x) (snd y)) eqn:E.
    + apply Nat.ltb_lt in E. constructor; [exact IH|].
      rewrite insert_desc_Permutation. constructor; [|exact Hy].
      unfold count_ge. lia.
    + apply Nat.ltb_ge in E. constructor; [by constructor|].
      constructor; [exact E|].
      eapply Forall_impl; [exact Hy|]. unfold count_ge. intros z Hz. lia.
Qed.

Lemma sorted_desc_StronglySorted (d : list (string * nat)) :
  StronglySorted count_ge (sorted_desc d).
Proof.
  induction d as [|x d IH]; simpl; [constructor|]. by apply insert_desc_StronglySorted.
Qed.

(** The sort is stable: entries with the same count keep their order. *)
Lemma insert_desc_filter_count (n : nat) (x : string * nat) (l : list (string * nat)) :
  List.filter (fun e => Nat.eqb (snd e) n) (insert_desc x l) =
  List.filter (fun e => Nat.eqb (snd e) n) (x :: l).
Proof.
  induction l as [|y l IH]; [reflexivity|].
  cbn [insert_desc]. destruct (Nat.ltb (snd x) (snd y)) eqn:E; [|reflexivity].
  apply Nat.ltb_lt in E. cbn [List.filter] in *. rewrite IH.
  destruct (Nat.eqb (snd y) n) eqn:Ey, (Nat.eqb (snd x) n) eqn:Ex; try reflexivity.
  apply Nat.eqb_eq in Ey, Ex. lia.
Qed.

Lemma sorted_desc_stable (n : nat) (d : list (string * nat)) :
  List.filter (fun e => Nat.eqb (snd e) n) (sorted_desc d) =
  List.filter (fun e => Nat.eqb (snd e) n) d.
Proof.
  induction d as [|x d IH]; [reflexivity|].
  cbn [sorted_desc fold_right]. rewrite insert_desc_filter_count.
  cbn [List.filter]. fold (sorted_desc d). by rewrite IH.
Qed.

(** The loop of lines 146-147: records with an empty topic are skipped. *)
Lemma topic_loop (h : store) (l : list ref) :
  let temas :=
    fold_left
      (fun d item =>
         if negb (String.eqb (tema (h item)) EmptyString)
         then count_add (tema (h item)) 1 d else d) l [] in
  NoDup (keys temas) /\
  forall k, dict_get k temas =
            if String.eqb k EmptyString then None else frequency (occurrences tema h l k).
Proof.
  cbv zeta.
  change (fold_left _ l [])
    with (fold_left
            (count_step (fun r => tema (h r)) (fun _ => 1%nat)
               (fun r => negb (String.eqb (tema (h r)) EmptyString))) l []).
  split; [apply count_loop_NoDup; constructor|].
  intros k. rewrite count_loop_get. simpl.
  rewrite existsb_filter_length, sum_list_ones.
  destruct (String.eqb k EmptyString) eqn:Ek.
  - apply String.eqb_eq in Ek as ->.
    replace (List.filter _ l) with (@nil ref); [reflexivity|].
    induction l as [|a l IH]; [reflexivity|]. simpl. unfold selected at 1.
    destruct (String.eqb (tema (h a)) EmptyString); simpl; exact IH.
  - unfold occurrences, frequency.
    replace (List.filter (selected _ _ k) l)
      with (List.filter (fun r => String.eqb (tema (h r)) k) l);
      [by destruct (Nat.eqb _ 0)|].
    apply List.filter_ext. intros a. unfold selected.
    destruct (String.eqb (tema (h a)) k) eqn:E; [|by rewrite andb_false_r].
    apply String.eqb_eq in E. rewrite E, Ek. reflexivity.
Qed.

Lemma keys_take {A} (n : nat) (d : list (string * A)) : keys (take n d) = take n (keys d).
Proof.
  unfold keys. revert n. induction d as [|x d IH]; intros [|n]; simpl; try reflexivity.
  by rewrite IH.
Qed.

Lemma frequency_Some (m n : nat) : frequency m = Some n -> n = m /\ (0 < n)%nat.
Proof.
  unfold frequency. destruct (Nat.eqb m 0) eqn:E; [discriminate|].
  apply Nat.eqb_neq in E. intros [= <-]. lia.
Qed.

(** X9.  The topic table of [get_statistics] lists at most 10 topics, by
    decreasing count; each listed topic is non-empty and carries the
    number of records with that topic; no topic left out occurs more
    often than a listed one, and with fewer than 10 entries no topic that
    occurs is left out. *)
Theorem statistics_topic_table (h : store) (u : QADataUnifier) :
  unified_items u <> [] ->
  exists stats t,
    get_statistics h u = Ok stats /\
    dict_get "distribucion_temas" stats = Some (SDist t) /\
    (length t <= 10)%nat /\
    NoDup (keys t) /\
    StronglySorted count_ge t /\
    (forall k n, (k, n) ∈ t ->
       k <> EmptyString /\ n = occurrences tema h (unified_items u) k /\ (0 < n)%nat) /\
    (forall k n k', (k, n) ∈ t -> k' ∉ keys t -> k' <> EmptyString ->
       (occurrences tema h (unified_items u) k' <= n)%nat) /\
    ((length t < 10)%nat ->
     forall k', k' <> EmptyString ->
       (0 < occurrences tema h (unified_items u) k')%nat -> k' ∈ keys t).
Proof.
  intros Hne. unfold get_statistics.
  destruct (unified_items u) as [|item its] eqn:E; [contradiction|].
  set (l := item :: its).
  assert (Hlen : length l = S (length its)) by reflexivity.
  rewrite Hlen, py_div_by_count. cbn [bind].
  destruct (topic_loop h l) as [Hnd Hget].
  set (temas := fold_left _ l []) in *.
  pose proof (sorted_desc_Permutation temas) as Hperm.
  pose proof (sorted_desc_StronglySorted temas) as Hsorted.
  set (s := sorted_desc temas) in *.
  assert (Hs_nd : NoDup (keys s)).
  { unfold keys. rewrite Hperm. exact Hnd. }
  assert (Hentry : forall k n, (k, n) ∈ s ->
            k <> EmptyString /\ n = occurrences tema h l k /\ (0 < n)%nat).
  { intros k n Hin. rewrite Hperm in Hin.
    apply (dict_get_elem_of k n temas Hnd) in Hin. rewrite Hget in Hin.
    destruct (String.eqb k EmptyString) eqn:Ek; [discriminate|].
    apply String.eqb_neq in Ek. apply frequency_Some in Hin. tauto. }
  assert (Hall : forall k', k' <> EmptyString -> (0 < occurrences tema h l k')%nat ->
            (k', occurrences tema h l k') ∈ s).
  { intros k' Hk' Hpos. rewrite Hperm. apply dict_get_Some_elem_of. rewrite Hget.
    apply String.eqb_neq in Hk'. rewrite Hk'. unfold frequency.
    destruct (Nat.eqb _ 0) eqn:E0; [apply Nat.eqb_eq in E0; lia | reflexivity]. }
  assert (Hsplit : s = take 10 s ++ drop 10 s) by (by rewrite take_drop).
  do 2 eexists. split; [reflexivity|]. split; [reflexivity|].
  split; [|split; [|split; [|split; [|split]]]].
  - rewrite length_take. lia.
  - rewrite keys_take.
    eapply sublist_NoDup; [exact Hs_nd | apply sublist_take].
  - rewrite Hsplit in Hsorted. by apply StronglySorted_app_1_l in Hsorted.
  - intros k n Hin. apply Hentry. rewrite Hsplit. apply elem_of_app. by left.
  - intros k n k' Hin Hk' Hne'.
    destruct (Nat.eq_dec (occurrences tema h l k') O) as [-> | Hpos]; [lia|].
    assert (Hin' : (k', occurrences tema h l k') ∈ s) by (apply Hall; [done | lia]).
    rewrite Hsplit in Hin'. apply elem_of_app in Hin' as [Hin' | Hin'].
    + exfalso. apply Hk'. apply list_elem_of_fmap. by eexists (_, _).
    + rewrite Hsplit in Hsorted.
      exact (StronglySorted_app_1_elem_of _ _ _ _ _ Hsorted Hin Hin').
  - intros Hshort k' Hk' Hpos.
    rewrite length_take in Hshort.
    rewrite take_ge by lia.
    apply list_elem_of_fmap. exists (k', occurrences tema h l k').
    split; [reflexivity | by apply Hall].
Qed.

Lemma statistics_topic_table_witness :
  exists stats,
    get_statistics three_records three_unified = Ok stats /\
    dict_get "distribucion_temas" stats
    = Some (SDist [("python basics"%string, 1%nat); ("python"%string, 1%nat)]).
Proof.
  destruct (statistics_topic_table three_records three_unified)
    as (stats & t & Hrun & _).
  - discriminate.
  - exists stats. split; [exact Hrun|].
    vm_compute in Hrun. injection Hrun as <-. reflexivity.
Defined.

(** X10.  On a non-empty collection the origin table of
    [get_statistics] has one entry per origin among the batches of the
    unifier (also for an origin whose batches hold no record), holding
    the number of records these batches hold when the statistics are
    taken; its counts add up to the total size of the batches, whatever
    the size of the collection (a merge shortens the collection, not the
    batches).  On an empty collection there is no origin table, whatever
    the batches: the statistics are [{"total": 0}]. *)
Theorem statistics_origin_table (h : store) (u : QADataUnifier) :
  match unified_items u with
  | [] => get_statistics h u = Ok [("total"%string, SInt 0)]
  | _ :: _ =>
      exists stats o,
        get_statistics h u = Ok stats /\
        dict_get "distribucion_origenes" stats = Some (SDist o) /\
        NoDup (keys o) /\
        (forall k, dict_get k o =
                   if existsb (fun b => String.eqb (origen b) k) (batches u)
                   then Some (held_by_origin (batches u) k) else None) /\
        sum_list (map snd o) = sum_list (map (fun b => length (items b)) (batches u))
  end.
Proof.
  unfold get_statistics.
  destruct (unified_items u) as [|item its] eqn:E; [reflexivity|].
  set (l := item :: its).
  assert (Hlen : length l = S (length its)) by reflexivity.
  rewrite Hlen, py_div_by_count. cbn [bind].
  do 2 eexists. split; [reflexivity|]. split; [reflexivity|].
  change (fold_left (fun d batch => count_add (origen batch) (length (items batch)) d)
            (batches u) [])
    with (fold_left (count_step origen (fun b => length (items b)) (fun _ => true))
            (batches u) []).
  split; [|split].
  - apply count_loop_NoDup. constructor.
  - intros k. rewrite count_loop_get. reflexivity.
  - rewrite count_loop_sum. simpl. by rewrite filter_true.
Qed.

Lemma statistics_origin_table_witness :
  (exists stats,
     get_statistics three_records with_empty_batch = Ok stats /\
     dict_get "distribucion_origenes" stats
     = Some (SDist [("prompt"%string, 1%nat); ("manual"%string, 0%nat)])) /\
  get_statistics three_records only_empty_batch = Ok [("total"%string, SInt 0)].
Proof.
  split.
  - destruct (statistics_origin_table three_records with_empty_batch)
      as (stats & o & Hrun & _).
    exists stats. split; [exact Hrun|].
    vm_compute in Hrun. injection Hrun as <-. reflexivity.
  - exact (statistics_origin_table three_records only_empty_batch).
Defined.

(** ** More on the data models *)

(** X11.  [QABatch.get_stats] and the unifier's [get_statistics] agree:
    on a unifier that has ingested exactly the batch, both return the
    same thing for an empty batch, and otherwise the same total, the
    same category and level tables and the same mean confidence; the
    unifier's topic table is the batch's, sorted by decreasing count and
    cut to 10 entries. *)
Theorem get_stats_agrees_with_get_statistics (h : store) (b : QABatch) :
  let u := add_batch QADataUnifier_init b in
  match items b with
  | [] => get_stats h b = get_statistics h u
  | _ :: _ =>
      exists s1 s2 temas,
        get_stats h b = Ok s1 /\
        get_statistics h u = Ok s2 /\
        dict_get "total" s1 = dict_get "total_items" s2 /\
        dict_get "categorias" s1 = dict_get "distribucion_categorias" s2 /\
        dict_get "niveles" s1 = dict_get "distribucion_niveles" s2 /\
        dict_get "confianza_promedio" s1 = dict_get "confianza_promedio" s2 /\
        dict_get "temas" s1 = Some (SDist temas) /\
        dict_get "distribucion_temas" s2 = Some (SDist (take 10 (sorted_desc temas)))
  end.
Proof.
  cbv zeta. unfold get_stats, get_statistics, add_batch. cbn [unified_items batches app].
  destruct (items b) as [|item its] eqn:E; [reflexivity|].
  set (l := item :: its).
  assert (Hlen : length l = S (length its)) by reflexivity.
  rewrite Hlen, py_div_by_count. cbn [bind].
  do 3 eexists. split; [reflexivity|]. split; [reflexivity|].
  repeat split.
Qed.

Lemma validate_confianza_Some (q c : Q) :
  validate_confianza q = Some c -> c = q /\ (0 <= c)%Q /\ (c <= 1)%Q.
Proof.
  unfold validate_confianza.
  destruct (Qle_bool 0 q) eqn:E0; [|discriminate].
  destruct (Qle_bool q 1) eqn:E1; [|discriminate].
  intros [= <-]. apply Qle_bool_iff in E0, E1. auto.
Qed.

Lemma QAItem_init_confianza (uuid : string) (now : datetime) (a : QAItemArgs) (it : QAItem) :
  QAItem_init uuid now a = Ok it ->
  with_default (8 # 10)%Q validate_confianza (arg_confianza a) = Some (confianza it).
Proof.
  unfold QAItem_init.
  destruct (validate_text 10 _), (validate_text 20 _),
    (with_default "general"%string _ _), (with_default "intermedio"%string _ _),
    (with_default EmptyString _ _), (with_default (8 # 10)%Q _ _);
    try discriminate.
  by intros [= <-].
Qed.

(** X12.  A record that [QAItem] accepts has a confidence within
    [0, 1] (0.8 when none is passed) and stores its question and its
    answer without surrounding whitespace. *)
Theorem constructed_record_is_clean (uuid : string) (now : datetime) (a : QAItemArgs)
  (it : QAItem) :
  QAItem_init uuid now a = Ok it ->
  confidence_in_range it /\
  (confianza it == default (8 # 10) (arg_confianza a))%Q /\
  strip (pregunta it) = pregunta it /\
  strip (respuesta it) = respuesta it.
Proof.
  intros H.
  pose proof (QAItem_init_confianza _ _ _ _ H) as Hc.
  apply QAItem_init_Ok in H as (Hp & Hr & _).
  apply validate_text_Some in Hp as (q & _ & _ & ->).
  apply validate_text_Some in Hr as (r & _ & _ & ->).
  rewrite !strip_idem.
  assert (Hconf : confidence_in_range it /\
                  (confianza it == default (8 # 10) (arg_confianza a))%Q).
  { unfold confidence_in_range. destruct (arg_confianza a) as [c|]; simpl in *.
    - apply validate_confianza_Some in Hc as (-> & H0 & H1). repeat split; try done.
    - injection Hc as <-. repeat split; try done; unfold Qle; simpl; lia. }
  tauto.
Qed.

Lemma constructed_record_is_clean_witness :
  exists it,
    QAItem_init "uuid-1" 0 padded_args = Ok it /\
    confidence_in_range it /\ strip (pregunta it) = pregunta it.
Proof.
  eexists. split; [reflexivity|].
  pose proof (constructed_record_is_clean "uuid-1" 0 padded_args _ eq_refl)
    as (Hc & _ & Hp & _).
  split; [exact Hc | exact Hp].
Defined.

Lemma validate_tipo_None (v : option string) : validate_tipo v = None.
Proof.
  unfold validate_tipo. destruct v as [s|]; [|reflexivity].
  destruct (existsb _ _) eqn:E; [|reflexivity].
  apply existsb_exists in E as (x & Hx & Heq). apply String.eqb_eq in Heq as ->.
  destruct Hx as [<- | [<- | []]]; reflexivity.
Qed.

(** X13.  No [GenerationRequest] can be constructed.  The validator of
    [tipo] looks for [prompt], [tema] and [documento_path] among the
    fields validated before it, and [tipo] is the first field: it finds
    none, and rejects "prompt" and "documento", the only values the
    field's type lets through.  Every call raises a validation error on
    [tipo], whatever else is passed. *)
Theorem GenerationRequest_never_constructed (a : GenerationRequestArgs) :
  exists fields,
    GenerationRequest_init a = Raise (ValidationError fields) /\
    head fields = Some "tipo"%string.
Proof.
  unfold GenerationRequest_init. rewrite validate_tipo_None.
  eexists. split; reflexivity.
Qed.

(** ** More on the export engine *)

Lemma dict_get_dict_set_eq {A} (k : string) (v : A) (d : list (string * A)) :
  dict_get k (dict_set k v d) = Some v.
Proof.
  induction d as [|[k' v'] d IH]; simpl.
  - by rewrite String.eqb_refl.
  - destruct (String.eqb k' k) eqn:E; simpl; rewrite E; [reflexivity | exact IH].
Qed.

Lemma dict_get_dict_set_ne {A} (k k' : string) (v : A) (d : list (string * A)) :
  k' <> k -> dict_get k' (dict_set k v d) = dict_get k' d.
Proof.
  intros Hne. induction d as [|[k0 v0] d IH]; simpl.
  - assert (String.eqb k k' = false) as -> by (apply String.eqb_neq; congruence).
    reflexivity.
  - destruct (String.eqb k0 k) eqn:E; simpl.
    + apply String.eqb_eq in E as ->.
      assert (String.eqb k k' = false) as -> by (apply String.eqb_neq; congruence).
      reflexivity.
    + by rewrite IH.
Qed.

Lemma keys_dict_set {A} (k : string) (v : A) (d : list (string * A)) :
  keys (dict_set k v d) = if decide (k ∈ keys d) then keys d else keys d ++ [k].
Proof.
  unfold keys. induction d as [|[k' v'] d IH]; simpl; [reflexivity|].
  destruct (String.eqb k' k) eqn:E; simpl.
  - apply String.eqb_eq in E as ->. rewrite decide_True by (by left). reflexivity.
  - apply String.eqb_neq in E. rewrite IH.
    destruct (decide (k ∈ map fst d)) as [Hin | Hnin].
    + rewrite decide_True by (by right). reflexivity.
    + rewrite decide_False; [reflexivity|].
      intros H. apply elem_of_cons in H as [-> | H]; done.
Qed.

Lemma elem_of_keys_dict_set {A} (k c : string) (v : A) (d : list (string * A)) :
  c ∈ keys (dict_set k v d) <-> c ∈ keys d \/ c = k.
Proof.
  rewrite keys_dict_set. destruct (decide (k ∈ keys d)) as [Hin | Hnin].
  - split; [by left | intros [H | ->]; done].
  - rewrite elem_of_app, list_elem_of_singleton. reflexivity.
Qed.

Lemma NoDup_keys_dict_set {A} (k : string) (v : A) (d : list (string * A)) :
  NoDup (keys d) -> NoDup (keys (dict_set k v d)).
Proof.
  intros Hnd. rewrite keys_dict_set. destruct (decide _) as [Hin | Hnin]; [exact Hnd|].
  apply NoDup_app. split; [exact Hnd|]. split.
  - intros x Hx Hx'. apply list_elem_of_singleton in Hx' as ->. done.
  - apply NoDup_singleton.
Qed.

Section Rows.

Variable py_str : pyval -> string.
Variable isoformat : datetime -> string.

Lemma export_row_unfold (item : QAItem) (incl : bool) :
  export_row py_str isoformat item incl =
  if incl then with_metadata py_str (metadatos item) (base_row isoformat item)
  else base_row isoformat item.
Proof.
  unfold export_row, with_metadata, base_row.
  destruct incl; [|reflexivity]. by destruct (metadatos item).
Qed.

Lemma with_metadata_NoDup (md : list (string * pyval)) (r : row) :
  NoDup (keys r) -> NoDup (keys (with_metadata py_str md r)).
Proof.
  revert r. induction md as [|kv md IH]; intros r Hnd; simpl; [exact Hnd|].
  apply IH. by apply NoDup_keys_dict_set.
Qed.

Lemma with_metadata_keys (md : list (string * pyval)) (r : row) (c : string) :
  c ∈ keys (with_metadata py_str md r) <->
  c ∈ keys r \/ exists k, k ∈ keys md /\ c = ("meta_" +:+ k)%string.
Proof.
  revert r. induction md as [|[k v] md IH]; intros r; simpl.
  - split; [by left|]. intros [H | (k & Hk & _)]; [exact H|]. by apply elem_of_nil in Hk.
  - rewrite IH, elem_of_keys_dict_set. simpl. split.
    + intros [[H | ->] | (k' & Hk' & ->)]; [by left | |].
      * right. exists k. split; [by left | reflexivity].
      * right. exists k'. split; [by right | reflexivity].
    + intros [H | (k' & Hk' & ->)]; [by left; left|].
      apply elem_of_cons in Hk' as [-> | Hk'].
      * left; by right.
      * right. by exists k'.
Qed.

(** A key that is not written by the loop keeps its value. *)
Lemma with_metadata_other (md : list (string * pyval)) (r : row) (c : string) :
  (forall k, k ∈ keys md -> c <> ("meta_" +:+ k)%string) ->
  dict_get c (with_metadata py_str md r) = dict_get c r.
Proof.
  revert r. induction md as [|[k v] md IH]; intros r Hc; simpl; [reflexivity|].
  rewrite IH.
  - apply dict_get_dict_set_ne. apply Hc. by left.
  - intros k' Hk'. apply Hc. by right.
Qed.

Lemma meta_inj (k k' : string) : ("meta_" +:+ k)%string = ("meta_" +:+ k')%string -> k = k'.
Proof. cbv [String.append]. congruence. Qed.

Lemma with_metadata_value (md : list (string * pyval)) (r : row) (k : string) (v : pyval) :
  NoDup (keys md) -> (k, v) ∈ md ->
  dict_get ("meta_" +:+ k) (with_metadata py_str md r) = Some (PStr (py_str v)).
Proof.
  revert r. induction md as [|[k0 v0] md IH]; intros r Hnd Hin; simpl.
  - by apply elem_of_nil in Hin.
  - simpl in Hnd. apply NoDup_cons in Hnd as [Hk0 Hnd].
    apply elem_of_cons in Hin as [[= <- <-] | Hin].
    + rewrite with_metadata_other; [apply dict_get_dict_set_eq|].
      intros k' Hk' Heq. apply meta_inj in Heq as <-. done.
    + by apply IH.
Qed.

Lemma meta_prefix (k : string) : String.prefix "meta_" ("meta_" +:+ k) = true.
Proof. cbv [String.append]. by destruct k. Qed.

Lemma base_row_NoDup (item : QAItem) : NoDup (keys (base_row isoformat item)).
Proof. unfold keys, base_row. simpl. apply (bool_decide_unpack _). by vm_compute. Qed.

(** X14.  The projection of a record, for a metadata mapping with
    distinct keys: the row has no key twice; every key that does not start
    with [meta_] has the value of the base projection, so no metadata
    entry overwrites one of the eleven fields; the keys are the eleven
    base names and, when metadata are included, [meta_k] for each
    metadata key [k], whose cell is [str] of its value; without metadata
    the row is the base projection. *)
Theorem export_row_fields (item : QAItem) (incl : bool) :
  NoDup (keys (metadatos item)) ->
  NoDup (keys (export_row py_str isoformat item incl)) /\
  (forall c, String.prefix "meta_" c = false ->
     dict_get c (export_row py_str isoformat item incl)
     = dict_get c (base_row isoformat item)) /\
  (forall c, c ∈ keys (export_row py_str isoformat item incl) <->
     c ∈ keys (base_row isoformat item) \/
     (incl = true /\ exists k, k ∈ keys (metadatos item) /\ c = ("meta_" +:+ k)%string)) /\
  (forall k v, incl = true -> (k, v) ∈ metadatos item ->
     dict_get ("meta_" +:+ k) (export_row py_str isoformat item incl)
     = Some (PStr (py_str v))) /\
  export_row py_str isoformat item false = base_row isoformat item.
Proof.
  intros Hmd. rewrite !export_row_unfold. split; [|split; [|split; [|split]]].
  - destruct incl; [apply with_metadata_NoDup|]; apply base_row_NoDup.
  - intros c Hc. destruct incl; [|reflexivity].
    apply with_metadata_other. intros k _ ->. by rewrite meta_prefix in Hc.
  - intros c. destruct incl.
    + rewrite with_metadata_keys. split; [intros [H | H]; [by left | by right]|].
      intros [H | [_ H]]; [by left | by right].
    + split; [by left | intros [H | [H _]]; [exact H | discriminate]].
  - intros k v -> Hin. by apply with_metadata_value.
  - reflexivity.
Qed.

End Rows.

Lemma export_row_fields_witness :
  dict_get "meta_autor" (export_row str_of_value fixed_isoformat (records_with_metadata O) true)
  = Some (PStr "test") /\
  dict_get "pregunta" (export_row str_of_value fixed_isoformat (records_with_metadata O) true)
  = Some (PStr "What is Python?").
Proof.
  destruct (export_row_fields str_of_value fixed_isoformat (records_with_metadata O) true)
    as (_ & Hbase & _ & Hmeta & _).
  - repeat constructor. apply not_elem_of_nil.
  - split.
    + apply (Hmeta "autor"%string (PStr "test") eq_refl). by left.
    + rewrite Hbase; reflexivity.
Defined.

Lemma lookup_map {A B} (f : A -> B) (l : list A) (i : nat) :
  map f l !! i = f <$> (l !! i).
Proof.
  revert i. induction l as [|a l IH]; intros [|i]; simpl; try reflexivity. apply IH.
Qed.

Lemma all_columns_uniform (data : list row) (ks : list string) :
  data <> [] ->
  Forall (fun r => keys r = ks) data ->
  all_columns data = list_to_set ks.
Proof.
  intros Hne Hall. apply set_eq. intros c.
  rewrite all_columns_elem_of, elem_of_list_to_set. rewrite Forall_forall in Hall. split.
  - intros (r & Hr & Hc). by rewrite <- (Hall r Hr).
  - intros Hc. destruct data as [|r data]; [done|].
    exists r. split; [by left|]. rewrite (Hall r); [exact Hc | by left].
Qed.

Lemma base_columns_sorted :
  sorted_str (elements (list_to_set (C := gset string)
    ["id"; "pregunta"; "respuesta"; "categoria"; "nivel"; "tema"; "idioma"; "confianza";
     "fecha_creacion"; "fuentes"; "palabras_clave"]%string)) = base_columns.
Proof. vm_compute. reflexivity. Qed.

(** X15.  Without metadata the CSV file of a non-empty list has the same
    header whatever the records: the eleven base names in lexicographic
    order, and one row of eleven cells per record. *)
Theorem csv_header_without_metadata (py_str : pyval -> string)
  (isoformat : datetime -> string) (h : store) (w : world) (its : list ref)
  (file_path : string) :
  its <> [] ->
  writable w file_path = true ->
  exists w',
    export_to_csv py_str isoformat h w its file_path false = Ok w' /\
    files w' !! file_path =
      Some (CsvFile base_columns
              (map (fun item => csv_cells base_columns (base_row isoformat (h item))) its)).
Proof.
  intros Hne Hw. unfold export_to_csv, write_file, prepare_export_data.
  assert (Hdata : map (fun item => export_row py_str isoformat (h item) false) its
                  = map (fun item => base_row isoformat (h item)) its) by reflexivity.
  rewrite Hdata. set (data := map _ its).
  destruct data as [|r data'] eqn:Edata.
  { subst data. destruct its; [contradiction | discriminate]. }
  rewrite <- Edata.
  assert (Hcols : sorted_str (elements (all_columns data)) = base_columns).
  { rewrite (all_columns_uniform data (keys (base_row isoformat (h 0%nat)))).
    - exact base_columns_sorted.
    - by rewrite Edata.
    - subst data. apply Forall_forall. intros x Hx.
      apply list_elem_of_fmap in Hx as (item & -> & _). reflexivity. }
  rewrite Hcols, Hw. cbn [bind].
  eexists. split; [reflexivity|]. simpl.
  rewrite lookup_insert_eq. subst data. by rewrite map_map.
Qed.

Lemma csv_header_without_metadata_witness :
  exists w' rows,
    export_to_csv str_of_value fixed_isoformat records_with_metadata empty_world
      [0%nat; 1%nat] "out.csv" false = Ok w' /\
    files w' !! "out.csv"%string = Some (CsvFile base_columns rows).
Proof.
  destruct (csv_header_without_metadata str_of_value fixed_isoformat records_with_metadata
              empty_world [0%nat; 1%nat] "out.csv") as (w' & Hrun & Hfile).
  - discriminate.
  - reflexivity.
  - exists w'. eexists. split; [exact Hrun | exact Hfile].
Defined.

(** X16.  What [export_to_csv] writes can be read back: the file has one
    row per record, in order, each with one cell per column; the cell
    under a column is the value the record's projection has for that
    name, or the empty string when it has none; so every projected value
    is found in its row at the position of its name in the header. *)
Theorem csv_cells_round_trip (py_str : pyval -> string) (isoformat : datetime -> string)
  (h : store) (w : world) (its : list ref) (file_path : string) (incl : bool) :
  its <> [] ->
  writable w file_path = true ->
  exists w' columns rows,
    export_to_csv py_str isoformat h w its file_path incl = Ok w' /\
    files w' !! file_path = Some (CsvFile columns rows) /\
    length rows = length its /\
    forall i item, its !! i = Some item ->
      exists cells,
        rows !! i = Some cells /\
        length cells = length columns /\
        (forall j c, columns !! j = Some c ->
           cells !! j
           = Some (default (PStr EmptyString)
                     (dict_get c (export_row py_str isoformat (h item) incl)))) /\
        (forall c v, dict_get c (export_row py_str isoformat (h item) incl) = Some v ->
           exists j, columns !! j = Some c /\ cells !! j = Some v).
Proof.
  intros Hne Hw.
  destruct (export_to_csv_columns py_str isoformat h w its file_path incl Hne Hw)
    as ((columns & w' & Hrun & Hfile & _ & _ & _ & Hcols & Hlen) & _).
  exists w', columns. eexists. split; [exact Hrun|]. split; [exact Hfile|].
  split; [by rewrite length_map|].
  intros i item Hi. eexists. split; [|split; [|split]].
  - unfold prepare_export_data. by rewrite !lookup_map, Hi.
  - unfold csv_cells. apply length_map.
  - intros j c Hj. unfold csv_cells. by rewrite lookup_map, Hj.
  - intros c v Hv.
    assert (Hc : c ∈ columns).
    { apply Hcols. exists (export_row py_str isoformat (h item) incl). split.
      - unfold prepare_export_data. apply list_elem_of_fmap. exists item.
        split; [reflexivity|]. by apply list_elem_of_lookup_2 in Hi.
      - apply dict_get_Some_elem_of in Hv. apply list_elem_of_fmap. by exists (c, v). }
    apply list_elem_of_lookup_1 in Hc as (j & Hj). exists j. split; [exact Hj|].
    unfold csv_cells. rewrite lookup_map, Hj. simpl. by rewrite Hv.
Qed.

Lemma csv_cells_round_trip_witness :
  exists w' columns rows,
    export_to_csv str_of_value fixed_isoformat records_with_metadata empty_world
      [0%nat; 1%nat] "out.csv" true = Ok w' /\
    files w' !! "out.csv"%string = Some (CsvFile columns rows) /\
    length rows = 2%nat.
Proof.
  destruct (csv_cells_round_trip str_of_value fixed_isoformat records_with_metadata
              empty_world [0%nat; 1%nat] "out.csv" true)
    as (w' & columns & rows & Hrun & Hfile & Hlen & _).
  - discriminate.
  - reflexivity.
  - exists w', columns, rows. split; [exact Hrun|]. split; [exact Hfile | exact Hlen].
Defined.

Lemma append_nil_l (t : string) : (EmptyString +:+ t)%string = t.
Proof. reflexivity. Qed.

Lemma append_cons (c : ascii) (s t : string) :
  (String c s +:+ t)%string = String c (s +:+ t).
Proof. reflexivity. Qed.

Lemma append_assoc (s t r : string) : ((s +:+ t) +:+ r)%string = (s +:+ (t +:+ r))%string.
Proof.
  induction s as [|c s IH]; [reflexivity|]. by rewrite !append_cons, IH.
Qed.

Lemma rev_string_append (s t acc : string) :
  rev_string (s +:+ t) acc = rev_string t (rev_string s acc).
Proof.
  revert acc. induction s as [|c s IH]; intros acc; [reflexivity|].
  rewrite append_cons. simpl. apply IH.
Qed.

Lemma rev_string_acc (t acc : string) :
  rev_string t acc = (rev_string t EmptyString +:+ acc)%string.
Proof.
  revert acc. induction t as [|c t IH]; intros acc; [reflexivity|].
  simpl. rewrite (IH (String c acc)), (IH (String c EmptyString)).
  by rewrite append_assoc.
Qed.

Lemma prefix_append (p x : string) : String.prefix p (p +:+ x) = true.
Proof.
  induction p as [|c p IH]; [by destruct x|].
  rewrite append_cons. simpl. destruct (Ascii.ascii_dec c c); [exact IH | contradiction].
Qed.

(** A string ends with what was appended to it. *)
Lemma endswith_append (s t : string) : endswith (s +:+ t) t = true.
Proof.
  unfold endswith. rewrite rev_string_append, (rev_string_acc t (rev_string s _)).
  apply prefix_append.
Qed.

(** X17.  The name of the exported file always ends with a dot and the
    format.  With no name from the caller (or an empty one) it is the
    name made up by [export], [qa_export_<time>.<format>], with no
    second extension; a name passed by the caller is used verbatim when
    it already ends with the extension, and with the extension appended
    otherwise.  The returned path joins the output directory and this
    name; the directory is the caller's [ruta_salida] when it is given
    and not empty, and the configured one otherwise. *)
Theorem export_filename_extension (strftime : datetime -> string) (OUTPUT_DIR : string)
  (path_join : string -> string -> string) (now : datetime) (config : ExportConfig) :
  let ext := ("." +:+ formato config)%string in
  let made_up := ("qa_export_" +:+ strftime now +:+ ext)%string in
  let name := export_filename strftime now config in
  let target := export_target strftime OUTPUT_DIR path_join now config in
  endswith name ext = true /\
  (nombre_archivo config = None \/ nombre_archivo config = Some EmptyString ->
   name = made_up) /\
  (forall n, nombre_archivo config = Some n -> n <> EmptyString ->
             endswith n ext = true -> name = n) /\
  (forall n, nombre_archivo config = Some n -> n <> EmptyString ->
             endswith n ext = false -> name = (n +:+ ext)%string) /\
  (forall r, ruta_salida config = Some r -> r <> EmptyString ->
             target = path_join r name) /\
  (ruta_salida config = None \/ ruta_salida config = Some EmptyString ->
   target = path_join OUTPUT_DIR name).
Proof.
  cbv zeta.
  assert (Hmade : endswith ("qa_export_" +:+ strftime now +:+ "." +:+ formato config)
                    ("." +:+ formato config) = true).
  { rewrite <- (append_assoc "qa_export_" (strftime now)). apply endswith_append. }
  split; [|split; [|split; [|split; [|split]]]].
  - unfold export_filename.
    match goal with
    | |- context [if endswith ?n ?e then _ else _] => destruct (endswith n e) eqn:E
    end; [exact E | apply endswith_append].
  - unfold export_filename. intros [-> | ->]; cbn [String.eqb]; by rewrite Hmade.
  - unfold export_filename. intros n -> Hn He.
    apply String.eqb_neq in Hn. by rewrite Hn, He.
  - unfold export_filename. intros n -> Hn He.
    apply String.eqb_neq in Hn. by rewrite Hn, He.
  - unfold export_target. fold (export_filename strftime now config).
    intros r -> Hr. apply String.eqb_neq in Hr. by rewrite Hr.
  - unfold export_target. fold (export_filename strftime now config).
    by intros [-> | ->].
Qed.

Lemma export_filename_extension_witness :
  export_filename fixed_strftime 0 own_directory_config = "report.csv"%string /\
  export_target fixed_strftime "data/output" join_with_slash 0 own_directory_config
  = "exports/mine/report.csv"%string /\
  export_filename fixed_strftime 0 xlsx_config = "qa_export_20240101_000000.xlsx"%string /\
  export_target fixed_strftime "data/output" join_with_slash 0 xlsx_config
  = "data/output/qa_export_20240101_000000.xlsx"%string.
Proof.
  destruct (export_filename_extension fixed_strftime "data/output" join_with_slash 0
              own_directory_config) as (_ & _ & _ & Hname & Hdir & _).
  destruct (export_filename_extension fixed_strftime "data/output" join_with_slash 0
              xlsx_config) as (_ & Hmade & _ & _ & _ & Hout).
  cbv zeta in *.
  assert (H1 : export_filename fixed_strftime 0 own_directory_config = "report.csv"%string).
  { rewrite (Hname "report"%string); [reflexivity | reflexivity | discriminate | reflexivity]. }
  assert (H2 : export_filename fixed_strftime 0 xlsx_config
               = "qa_export_20240101_000000.xlsx"%string).
  { rewrite Hmade; [reflexivity | by left]. }
  split; [exact H1|]. split; [|split; [exact H2|]].
  - rewrite (Hdir "exports/mine"%string); [|reflexivity|discriminate].
    rewrite H1. reflexivity.
  - rewrite Hout by (by left). rewrite H2. reflexivity.
Defined.

Section ExportOutcomes.

Variable py_str : pyval -> string.
Variables isoformat strftime : datetime -> string.
Variable OUTPUT_DIR : string.
Variable path_join : string -> string -> string.
Variable path_parent : string -> string.
Variable path_ancestors : string -> list string.

(** X18.  Exporting an empty list, the target directory being creatable:
    as CSV, [export] returns the path of a file it has not written (the
    files are as before and the warning is logged); as JSON, where the
    path is writable, it writes a file with [total_items] 0 and no
    item. *)
Theorem export_of_empty_list (self : QAExporter) (h : store) (w : world) (now : datetime)
  (config : ExportConfig) :
  let target := export_target strftime OUTPUT_DIR path_join now config in
  let run :=
    export py_str isoformat strftime OUTPUT_DIR path_join path_parent path_ancestors
      self h w now [] config in
  creatable w (path_parent target) = true ->
  (formato config = "csv"%string ->
   exists w', run = Ok (w', target) /\ files w' = files w /\
              log w' = log w ++ [Warning_no_data]) /\
  (formato config = "json"%string -> writable w target = true ->
   exists w', run = Ok (w', target) /\
              files w' !! target = Some (JsonFile 0 (isoformat now) "1.0" [])).
Proof.
  cbv zeta. intros Hc. unfold export, mkdir_parents. rewrite Hc. cbn [bind]. split.
  - intros ->. simpl. eexists. split; [reflexivity|]. split; reflexivity.
  - intros -> Hw. simpl. unfold export_to_json, write_file. simpl. rewrite Hw. simpl.
    eexists. split; [reflexivity|]. simpl. apply lookup_insert_eq.
Qed.

(** With a format other than "csv" and "json", [export] raises. *)
Lemma export_other_format_raises (self : QAExporter) (h : store) (w : world)
  (now : datetime) (its : list ref) (config : ExportConfig) :
  formato config <> "csv"%string -> formato config <> "json"%string ->
  exists e,
    export py_str isoformat strftime OUTPUT_DIR path_join path_parent path_ancestors
      self h w now its config = Raise e.
Proof.
  intros Hcsv Hjson. unfold export, mkdir_parents.
  destruct (creatable w _); [|by eexists]. cbn [bind].
  apply String.eqb_neq in Hcsv, Hjson. rewrite Hcsv, Hjson. by eexists.
Qed.

End ExportOutcomes.

Lemma export_of_empty_list_witness :
  exists w',
    export str_of_value fixed_isoformat fixed_strftime "data/output" join_with_slash
      parent_is_output no_ancestors QAExporter_init two_records empty_world 0 [] csv_config
    = Ok (w', "data/output/report.csv"%string) /\
    files w' = ∅.
Proof.
  destruct (export_of_empty_list str_of_value fixed_isoformat fixed_strftime "data/output"
              join_with_slash parent_is_output no_ancestors QAExporter_init two_records
              empty_world 0 csv_config eq_refl) as [Hcsv _].
  destruct (Hcsv eq_refl) as (w' & Hrun & Hfiles & _).
  exists w'. split; [exact Hrun | exact Hfiles].
Defined.

(** ** More on the unification manager *)

(** X19.  [add_data] raises exactly when its argument is neither a
    [QABatch] nor a list, and then it is the [ValueError] "Tipo de datos
    no soportado"; a list is never rejected, whatever it holds. *)
Theorem add_data_raises_iff (uuid : string) (now : datetime) (m : QADataManager)
  (data : pyobj) :
  ((exists e, add_data uuid now m data = Raise e) <->
   (is_QABatch data = false /\ as_list data = None)) /\
  (forall e, add_data uuid now m data = Raise e ->
             e = ValueError "Tipo de datos no soportado") /\
  (forall l, as_list data = Some l -> exists m', add_data uuid now m data = Ok m').
Proof.
  assert (Hcases :
    ((exists m', add_data uuid now m data = Ok m') /\
     (is_QABatch data = true \/ exists l, as_list data = Some l)) \/
    (add_data uuid now m data = Raise (ValueError "Tipo de datos no soportado") /\
     is_QABatch data = false /\ as_list data = None)).
  { destruct (is_QABatch data) eqn:Hb.
    { left. destruct data; try discriminate. split; [by eexists | by left]. }
    destruct (as_list data) as [l|] eqn:Hl.
    - left. split; [|right; by exists l].
      unfold add_data. destruct data as [b | r | l' | v]; try discriminate;
        rewrite Hl; destruct (forallb is_QABatch l); try (by eexists);
        destruct (forallb is_QAItem l); by eexists.
    - right. split; [|by split].
      unfold add_data. destruct data as [b | r | l' | v]; try discriminate;
        by rewrite ?Hl. }
  split; [split|split].
  - intros [e He]. destruct Hcases as [[[m' Hm'] _] | (_ & Hb & Hl)]; [congruence | by split].
  - intros [Hb Hl]. destruct Hcases as [[_ [Hb' | [l Hl']]] | (Hr & _)];
      [congruence | congruence | by eexists].
  - intros e He. destruct Hcases as [[[m' Hm'] _] | (Hr & _)]; congruence.
  - intros l Hl. destruct Hcases as [[Hok _] | (_ & _ & Hl')]; [exact Hok | congruence].
Qed.

Lemma add_batches_fold (bs : list QABatch) (u : QADataUnifier) :
  batches (add_batches u bs) = batches u ++ bs /\
  unified_items (add_batches u bs) = unified_items u ++ concat (map items bs).
Proof.
  unfold add_batches. revert u. induction bs as [|b bs IH]; intros u; simpl.
  - by rewrite !app_nil_r.
  - destruct (IH (add_batch u b)) as [-> ->]. simpl.
    by rewrite <- !app_assoc.
Qed.

Lemma the_batches_map (bs : list QABatch) : the_batches (map ObjBatch bs) = bs.
Proof.
  induction bs as [|b bs IH]; [reflexivity|].
  change (the_batches (map ObjBatch (b :: bs))) with (b :: the_batches (map ObjBatch bs)).
  by rewrite IH.
Qed.

Lemma forallb_is_QABatch_map (bs : list QABatch) : forallb is_QABatch (map ObjBatch bs) = true.
Proof. induction bs as [|b bs IH]; simpl; [reflexivity | exact IH]. Qed.

(** X20.  Ingesting a list of batches is ingesting them one after the
    other: the batches are appended to the list of batches and their
    records, batch after batch, to the unified collection; records
    already there stay in place. *)
Theorem add_data_list_of_batches (uuid : string) (now : datetime) (m : QADataManager)
  (bs : list QABatch) :
  exists m',
    add_data uuid now m (ObjList (map ObjBatch bs)) = Ok m' /\
    batches (unifier m') = batches (unifier m) ++ bs /\
    unified_items (unifier m') = unified_items (unifier m) ++ concat (map items bs) /\
    exporter m' = exporter m /\
    fold_left (fun r b => try m0 <- r ;;; add_data uuid now m0 (ObjBatch b)) bs (Ok m)
    = Ok m'.
Proof.
  unfold add_data at 1. cbn [as_list]. rewrite forallb_is_QABatch_map, the_batches_map.
  eexists. split; [reflexivity|].
  destruct (add_batches_fold bs (unifier m)) as [Hb Hu].
  split; [exact Hb|]. split; [exact Hu|]. split; [reflexivity|].
  unfold add_batches. clear Hb Hu. revert m.
  induction bs as [|b bs IH]; intros m; simpl.
  - unfold with_unifier. by destruct m.
  - rewrite IH. reflexivity.
Qed.

(** X21.  Ingestion keeps the collection in step with the batches: if
    the unified collection is the concatenation of the records of the
    ingested batches, it still is after any [add_data] that returns. *)
Theorem add_data_keeps_consistency (uuid : string) (now : datetime) (m m' : QADataManager)
  (data : pyobj) :
  consistent (unifier m) ->
  add_data uuid now m data = Ok m' ->
  consistent (unifier m').
Proof.
  unfold consistent. intros Hm Hrun.
  assert (Hone : forall b,
            unified_items (add_batch (unifier m) b)
            = concat (map items (batches (add_batch (unifier m) b)))).
  { intros b. simpl. rewrite Hm, map_app, concat_app. simpl. by rewrite app_nil_r. }
  assert (Hlist : forall l, as_list data = Some l -> is_QABatch data = false ->
            unified_items (unifier m') = concat (map items (batches (unifier m')))).
  { intros l Hl Hb. unfold add_data in Hrun.
    destruct data as [b | r | l' | v]; try discriminate; rewrite Hl in Hrun;
      (destruct (forallb is_QABatch l);
       [injection Hrun as <-; simpl;
        destruct (add_batches_fold (the_batches l) (unifier m)) as [-> ->];
        by rewrite Hm, map_app, concat_app
       |destruct (forallb is_QAItem l); injection Hrun as <-;
        [apply Hone | exact Hm]]). }
  destruct data as [b | r | l | v].
  - injection Hrun as <-. apply Hone.
  - discriminate.
  - by apply (Hlist l).
  - destruct (as_list (ObjOther v)) as [l|] eqn:El; [by apply (Hlist l)|].
    unfold add_data in Hrun. rewrite El in Hrun. discriminate.
Qed.

Lemma add_data_keeps_consistency_witness :
  consistent (unifier (with_unifier QADataManager_init
                         (add_batch QADataUnifier_init one_batch))).
Proof.
  apply (add_data_keeps_consistency "uuid-1" 0 QADataManager_init _ (ObjBatch one_batch)).
  - reflexivity.
  - reflexivity.
Defined.

(** X22.  [process_and_export] with a format other than "csv" and "json"
    raises; if duplicates were to be removed, the store and the
    collection are then the merged ones (the merge is not undone), and
    otherwise they are as before. *)
Theorem process_and_export_failure_keeps_merge (ratio : string -> string -> Q)
  (float_of_str : string -> option pyfloat) (py_str : pyval -> string)
  (isoformat strftime : datetime -> string) (OUTPUT_DIR : string)
  (path_join : string -> string -> string) (path_parent : string -> string)
  (path_ancestors : string -> list string)
  (m : QADataManager) (h : store) (w : world) (now : datetime) (config : ExportConfig)
  (thr : Q) :
  formato config <> "csv"%string ->
  formato config <> "json"%string ->
  let run remove_duplicates :=
    process_and_export ratio float_of_str py_str isoformat strftime OUTPUT_DIR path_join
      path_parent path_ancestors m h w now config remove_duplicates thr in
  (exists e, snd (run true) = Raise e) /\
  (fst (fst (run true)), unifier (snd (fst (run true))))
    = fst (merge_similar_items ratio thr h (unifier m)) /\
  exporter (snd (fst (run true))) = exporter m /\
  (exists e, snd (run false) = Raise e) /\
  fst (run false) = (h, m).
Proof.
  intros Hcsv Hjson. cbv zeta. unfold process_and_export.
  destruct (merge_similar_items ratio thr h (unifier m)) as [[h' u'] c]. simpl.
  assert (Hraise : forall h0 u0,
            exists e,
              (try items_to_export <- filter_items float_of_str h0 u0 (filtros config) ;;;
               export py_str isoformat strftime OUTPUT_DIR path_join path_parent
                 path_ancestors (exporter m) h0 w now items_to_export config) = Raise e).
  { intros h0 u0. destruct (filter_items _ _ _ _) as [l | e]; simpl; [|by eexists].
    by apply export_other_format_raises. }
  repeat split; try apply Hraise. unfold with_unifier. by destruct m.
Qed.

Lemma process_and_export_failure_keeps_merge_witness :
  let out :=
    process_and_export SequenceMatcher.ratio float_of_no_str str_of_value fixed_isoformat
      fixed_strftime "data/output" join_with_slash parent_is_output no_ancestors
      (with_unifier QADataManager_init two_unified) two_records empty_world 0
      xlsx_config true (8 # 10) in
  (exists e, snd out = Raise e) /\
  unified_items (unifier (snd (fst out))) = [0%nat].
Proof.
  cbv zeta.
  destruct (process_and_export_failure_keeps_merge SequenceMatcher.ratio float_of_no_str
              str_of_value fixed_isoformat fixed_strftime "data/output" join_with_slash
              parent_is_output no_ancestors (with_unifier QADataManager_init two_unified)
              two_records empty_world 0 xlsx_config (8 # 10))
    as (Hraise & Hstate & _).
  - discriminate.
  - discriminate.
  - split; [exact Hraise|]. vm_compute. reflexivity.
Defined.

(** ** The extractor of existing pairs *)

Section ExtractorProofs.

Variable findall : string -> string -> list (string * string).

Lemma quality_step_cases (st : list (string * string) * gset string)
  (qa : string * string) :
  (quality_ok (snd st) qa = true /\
   quality_step st qa = (fst st ++ [qa], {[lower (fst qa)]} ∪ snd st)) \/
  (quality_ok (snd st) qa = false /\ quality_step st qa = st).
Proof. unfold quality_step. destruct (quality_ok (snd st) qa); [left | right]; by split. Qed.

Lemma quality_loop (l : list (string * string)) (filtered : list (string * string))
  (seen : gset string) :
  (forall x, x ∈ seen <-> x ∈ lowered filtered) ->
  NoDup (lowered filtered) ->
  Forall good_pair filtered ->
  let out := fst (fold_left quality_step l (filtered, seen)) in
  NoDup (lowered out) /\ Forall good_pair out /\
  exists kept, out = filtered ++ kept /\ sublist kept l.
Proof.
  revert filtered seen. induction l as [|qa l IH]; intros filtered seen Hseen Hnd Hgood.
  - simpl. split; [exact Hnd|]. split; [exact Hgood|].
    exists []. split; [by rewrite app_nil_r | constructor].
  - cbn [fold_left].
    destruct (quality_step_cases (filtered, seen) qa) as [[E ->] | [E ->]];
      cbn [fst snd] in *.
    + unfold quality_ok in E. rewrite !andb_true_iff in E.
      destruct E as [[[Hnew Hq] Ha] Hmark].
      apply negb_true_iff, bool_decide_eq_false in Hnew.
      apply Nat.ltb_lt in Hq, Ha.
      destruct (IH (filtered ++ [qa]) ({[lower (fst qa)]} ∪ seen)) as (H1 & H2 & kept & H3 & H4).
      * intros x. unfold lowered. rewrite map_app, elem_of_app, elem_of_union, Hseen.
        simpl. rewrite elem_of_singleton, list_elem_of_singleton. tauto.
      * unfold lowered. rewrite map_app. apply NoDup_app. split; [exact Hnd|].
        split; [|apply NoDup_singleton].
        intros x Hx Hx'. apply list_elem_of_singleton in Hx' as ->.
        apply Hnew, Hseen, Hx.
      * apply Forall_app. split; [exact Hgood|]. constructor; [|constructor].
        repeat split; assumption.
      * split; [exact H1|]. split; [exact H2|].
        exists (qa :: kept). split; [by rewrite H3, <- app_assoc | by constructor].
    + destruct (IH filtered seen Hseen Hnd Hgood) as (H1 & H2 & kept & H3 & H4).
      split; [exact H1|]. split; [exact H2|].
      exists kept. split; [exact H3 | by constructor].
Qed.

(** X23.  The pairs [extract_existing_qa] returns: each has a question
    of more than 10 characters that contains a question mark and an
    answer of more than 20 characters, both without surrounding
    whitespace; no two questions are equal up to case; and they are
    matches of the patterns, trimmed, in the order the patterns gave
    them. *)
Theorem extracted_pairs_quality (text : string) :
  let out := extract_existing_qa findall text in
  Forall (fun qa => good_pair qa /\ strip (fst qa) = fst qa /\ strip (snd qa) = snd qa) out /\
  NoDup (lowered out) /\
  sublist out
    (flat_map
       (fun pattern => map (fun m => (strip (fst m), strip (snd m))) (findall pattern text))
       qa_patterns).
Proof.
  cbv zeta. unfold extract_existing_qa.
  set (qa_pairs := flat_map _ qa_patterns).
  destruct (quality_loop qa_pairs [] ∅) as (Hnd & Hgood & kept & Hout & Hsub).
  - intros x. split; intros H; [by apply not_elem_of_empty in H | by apply elem_of_nil in H].
  - constructor.
  - constructor.
  - split; [|split; [exact Hnd|]].
    + rewrite Forall_forall in Hgood |- *. intros qa Hqa. split; [by apply Hgood|].
      assert (Hin : qa ∈ qa_pairs).
      { rewrite Hout in Hqa. simpl in Hqa. eapply elem_of_sublist; [exact Hqa | exact Hsub]. }
      subst qa_pairs. apply list_elem_of_In, in_flat_map in Hin as (p & _ & Hin).
      apply in_map_iff in Hin as (m & <- & _). simpl. by rewrite !strip_idem.
    + rewrite Hout. exact Hsub.
Qed.

Lemma validate_text_ok (n : nat) (s : string) :
  (n <= len s)%nat -> validate_text n (Some s) = Some (strip s).
Proof. intros H. unfold validate_text, clean_text. apply Nat.leb_le in H. by rewrite H. Qed.

(** X24.  [process_document] builds a record from every extracted pair
    without failure when the level is one of the three literals: the
    record holds the pair's question and answer as they are, the
    lower-cased trimmed category, and the document as its only source. *)
Theorem extracted_pairs_are_accepted (uuid : string) (now : datetime) (text : string)
  (pair : string * string) (categoria_arg nivel_arg file_path : string) :
  pair ∈ extract_existing_qa findall text ->
  In nivel_arg niveles_validos ->
  exists it,
    QAItem_init uuid now (extracted_args pair categoria_arg nivel_arg file_path) = Ok it /\
    pregunta it = fst pair /\ respuesta it = snd pair /\
    categoria it = strip (lower categoria_arg) /\ nivel it = nivel_arg /\
    fuentes it = [file_path].
Proof.
  intros Hin Hniv.
  destruct (extracted_pairs_quality text) as (Hq & _ & _).
  rewrite Forall_forall in Hq. destruct (Hq pair Hin) as ((Hlq & Hla & _) & Hsq & Hsa).
  assert (Hnivel : validate_nivel nivel_arg = Some nivel_arg).
  { unfold validate_nivel.
    assert (existsb (String.eqb nivel_arg) niveles_validos = true) as ->; [|reflexivity].
    apply existsb_exists. exists nivel_arg. split; [exact Hniv | apply String.eqb_refl]. }
  unfold QAItem_init, extracted_args.
  cbn [arg_id arg_pregunta arg_respuesta arg_categoria arg_nivel arg_tema arg_fuentes
       arg_palabras_clave arg_idioma arg_confianza arg_metadatos arg_fecha_creacion
       with_default].
  rewrite !validate_text_ok by lia. rewrite Hnivel, Hsq, Hsa.
  eexists. split; [reflexivity|]. repeat split.
Qed.

End ExtractorProofs.

Lemma extracted_pairs_are_accepted_witness :
  exists it,
    QAItem_init "uuid-1" 0
      (extracted_args ("What is Python really?"%string,
                       "Python is a programming language."%string)
         "Programming" "avanzado" "doc.txt") = Ok it /\
    pregunta it = "What is Python really?"%string.
Proof.
  destruct (extracted_pairs_are_accepted two_matches "uuid-1" 0 "any text"
              ("What is Python really?"%string, "Python is a programming language."%string)
              "Programming" "avanzado" "doc.txt") as (it & Hrun & Hp & _).
  - vm_compute. by left.
  - right; right; left. reflexivity.
  - exists it. split; [exact Hrun | exact Hp].
Defined.
